(** * HTML-to-image conversion service: a shallow embedding of [server.js]

    The service keeps one shared browser handle ([let browser = null]),
    exposes [GET /health] and [POST /convert], and drives an external
    browser-automation library.  The embedding follows the source:

    - request fields are JavaScript values ([jsval]); truthiness,
      [parseInt], the relational comparison [>], strict equality and
      template-literal conversion are written out as the language defines
      them on those values;
    - the automation library is an oracle ([playwright]) giving the
      way every call the source makes settles, so that statements
      quantified over it cover every behaviour of a browser whose calls
      settle: an awaited call resolves or rejects.  A call that stays
      pending for ever (nothing bounds [page.evaluate] or
      [page.screenshot]) leaves the handler suspended at that [await];
      such runs have no outcome here and no statement below is about
      them;
    - handlers run in a small state-and-exception monad that also
      collects the observable events (library calls with their outcome,
      console lines, responses) in the order they happen;
    - [initBrowser] is also given as a coroutine with its suspension
      point ([await chromium.launch]) so that interleavings of several
      callers can be run.

    Numbers are IEEE doubles, kept exact: a finite one is an integer
    mantissa and a binary exponent, and a decimal or an integer literal
    is rounded to the nearest double, ties to even.  The numbers carried
    by a request are integer literals; fractional JSON numbers, arrays
    and nested objects as field values are outside the model.  A string
    is the UTF-8 encoding of the JavaScript string. *)

From stdpp Require Import base list.
From Stdlib Require Import ZArith String Ascii List Lia Bool DecimalString.
Import ListNotations.

Local Open Scope string_scope.
Local Open Scope list_scope.

(** ** JavaScript values *)

Module JS.

(** The values a request field can hold.  [VNumber n] is the integer
    literal [n] of a JSON body; it denotes the double nearest to [n]
    ([double_of_Z]). *)
Inductive jsval : Type :=
| VUndefined
| VNull
| VBool (b : bool)
| VNumber (n : Z)
| VString (s : string).

(** Result of [parseInt]: [NaN], an integer-valued number, or an
    infinity. *)
Inductive integer : Type :=
| NaN
| Int (z : Z)
| Infinity (negative : bool).

(** Result of [ToNumber]: [Finite m e] is the number [m * 2^e]. *)
Inductive number : Type :=
| NotANumber
| Infinite (negative : bool)
| Finite (m e : Z).

(** [!!v] *)
Definition truthy (v : jsval) : bool :=
  match v with
  | VUndefined | VNull => false
  | VBool b => b
  | VNumber n => negb (n =? 0)%Z
  | VString s => negb (s =? "")
  end.

(** Destructuring default [{ x = d } = obj]: used only when the property
    is [undefined]. *)
Definition with_default (d v : jsval) : jsval :=
  match v with
  | VUndefined => d
  | _ => v
  end.

(** [v === 'literal'] *)
Definition strict_eq_string (v : jsval) (lit : string) : bool :=
  match v with
  | VString s => s =? lit
  | _ => false
  end.

Definition signed (negative : bool) (z : Z) : Z :=
  if negative then (- z)%Z else z.

(** *** Binary64 *)

(** [a / b] rounded to the nearest integer, ties to the even one
    ([a >= 0], [b > 0]). *)
Definition nearest_even (a b : Z) : Z :=
  (let q := a / b in
   let r := a mod b in
   if (b <? 2 * r) || ((b =? 2 * r) && Z.odd q) then q + 1 else q)%Z.

(** The [t] with [2^t <= num / den < 2^(t+1)] ([num], [den > 0]). *)
Definition binade (num den : Z) : Z :=
  (let t := Z.log2 num - Z.log2 den in
   if (if 0 <=? t then den * 2 ^ t <=? num else den <=? num * 2 ^ (- t))
   then t else t - 1)%Z.

(** The double nearest to [num / den > 0], as [(m, q)] standing for
    [m * 2^q]: 53 bits of precision, exponents down to the subnormal
    [2^-1074], ties to even; the upper end of the range is checked by
    [overflows]. *)
Definition nearest_double (num den : Z) : Z * Z :=
  (let q := Z.max (binade num den - 52) (-1074) in
   (if 0 <=? q then nearest_even num (den * 2 ^ q)
    else nearest_even (num * 2 ^ (- q)) den,
    q))%Z.

Definition overflows (m q : Z) : bool :=
  ((0 <=? q) && (2 ^ 1024 <=? m * 2 ^ q))%Z.

(** The integer-valued double nearest to the integer [z >= 0], the range
    of doubles left aside.  Integers up to [2^53] are doubles. *)
Definition nearest_integer (z : Z) : Z :=
  (if z <=? 2 ^ 53 then z
   else let '(m, q) := nearest_double z 1 in m * 2 ^ q)%Z.

(** The number denoted by the integer [z >= 0] with a sign: what
    rounds to [2^1024] or more is an infinity. *)
Definition to_integer (negative : bool) (z : Z) : integer :=
  (let x := nearest_integer z in
   if 2 ^ 1024 <=? x then Infinity negative
   else Int (signed negative x))%Z.

(** How the integer [n] written in a JSON body is read. *)
Definition double_of_Z (n : Z) : integer :=
  to_integer (n <? 0)%Z (Z.abs n).

(** *** [Number::toString] *)

Definition numeral (z : Z) : string := NilZero.string_of_int (Z.to_int z).

Fixpoint zeros (n : nat) : string :=
  match n with
  | O => EmptyString
  | S n' => String "0" (zeros n')
  end.

(** The shortest decimal [c * 10^z] that reads back as the double [x]
    (the closest one if several have that length): [k] digits are tried
    for [k] from the given one on; [d] is the number of digits of [x]. *)
Fixpoint shortest_from (fuel : nat) (k x d : Z) : Z * Z :=
  match fuel with
  | O => (x, 0%Z)
  | S fuel' =>
      (if d - k <? 0 then (x, 0)
       else
         let scale := 10 ^ (d - k) in
         let lo := x / scale in
         let hi := lo + 1 in
         let ok_lo := nearest_integer (lo * scale) =? x in
         let ok_hi := nearest_integer (hi * scale) =? x in
         let below := x - lo * scale in
         let above := hi * scale - x in
         if ok_lo && (negb ok_hi || (below <? above)
                      || ((below =? above) && Z.even lo))
         then (lo, d - k)
         else if ok_hi then (if hi =? 10 ^ k then (1, d) else (hi, d - k))
         else shortest_from fuel' (k + 1) x d)%Z
  end.

Definition shortest (x : Z) : Z * Z :=
  shortest_from 17 1 x (Z.of_nat (String.length (numeral x))).

(** [Number::toString] of an integer-valued double [x > 2^53]: the
    shortest digits followed by zeros up to 21 digits, the exponent form
    beyond. *)
Definition large_numeral (x : Z) : string :=
  let '(c, z) := shortest x in
  let digits := numeral c in
  let n := (Z.of_nat (String.length digits) + z)%Z in
  if (n <=? 21)%Z then digits ++ zeros (Z.to_nat z)
  else
    match digits with
    | String d EmptyString => String d ("e+" ++ numeral (n - 1))
    | String d rest => String d ("." ++ rest ++ "e+" ++ numeral (n - 1))
    | EmptyString => EmptyString
    end.

(** [ToString], as used by template literals. *)
Definition ToString (v : jsval) : string :=
  match v with
  | VUndefined => "undefined"
  | VNull => "null"
  | VBool true => "true"
  | VBool false => "false"
  | VNumber n =>
      match double_of_Z n with
      | Int x =>
          if (Z.abs x <=? 2 ^ 53)%Z then numeral x
          else (if (x <? 0)%Z then "-" else "") ++ large_numeral (Z.abs x)
      | Infinity negative => if negative then "-Infinity" else "Infinity"
      | NaN => "NaN"
      end
  | VString s => s
  end.

(** *** Strings *)

Fixpoint drop (n : nat) (s : string) : string :=
  match n, s with
  | O, _ => s
  | S n', String _ s' => drop n' s'
  | S _, EmptyString => EmptyString
  end.

(** [s.includes(needle)] *)
Fixpoint includes (needle s : string) : bool :=
  String.prefix needle s ||
  match s with
  | EmptyString => false
  | String _ s' => includes needle s'
  end.

(** [s.replace(needle, repl)] with a string pattern: only the first
    occurrence is replaced. *)
Fixpoint replace (needle repl s : string) : string :=
  if String.prefix needle s then repl ++ drop (String.length needle) s
  else match s with
       | EmptyString => EmptyString
       | String c s' => String c (replace needle repl s')
       end.

(** *** White space

    A string is the UTF-8 encoding of the JavaScript string.  The white
    space of numeric literals is TAB, LF, VT, FF, CR, SP, and, on two or
    three bytes, U+00A0, U+1680, U+2000..U+200A, U+2028, U+2029, U+202F,
    U+205F, U+3000 and U+FEFF. *)

Definition is_white (c : ascii) : bool :=
  let n := nat_of_ascii c in
  ((9 <=? n) && (n <=? 13))%nat || (n =? 32)%nat.

Definition is_white2 (c1 c2 : ascii) : bool :=
  ((nat_of_ascii c1 =? 194) && (nat_of_ascii c2 =? 160))%nat.

Definition is_white3 (c1 c2 c3 : ascii) : bool :=
  let a := nat_of_ascii c1 in
  let b := nat_of_ascii c2 in
  let c := nat_of_ascii c3 in
  ((a =? 225) && (b =? 154) && (c =? 128)
   || (a =? 226) && (b =? 128)
      && (((128 <=? c) && (c <=? 138)) || (c =? 168) || (c =? 169)
          || (c =? 175))
   || (a =? 226) && (b =? 129) && (c =? 159)
   || (a =? 227) && (b =? 128) && (c =? 128)
   || (a =? 239) && (b =? 187) && (c =? 191))%nat.

(** [s] without its first character, when that is white space. *)
Definition skip_white (s : string) : option string :=
  match s with
  | String c1 s1 =>
      if is_white c1 then Some s1
      else match s1 with
           | String c2 s2 =>
               if is_white2 c1 c2 then Some s2
               else match s2 with
                    | String c3 s3 =>
                        if is_white3 c1 c2 c3 then Some s3 else None
                    | EmptyString => None
                    end
           | EmptyString => None
           end
  | EmptyString => None
  end.

Fixpoint trim_start (s : string) : string :=
  match s with
  | String c1 s1 =>
      if is_white c1 then trim_start s1
      else match s1 with
           | String c2 s2 =>
               if is_white2 c1 c2 then trim_start s2
               else match s2 with
                    | String c3 s3 =>
                        if is_white3 c1 c2 c3 then trim_start s3 else s
                    | EmptyString => s
                    end
           | EmptyString => s
           end
  | EmptyString => EmptyString
  end.

Definition all_white (s : string) : bool :=
  match trim_start s with
  | EmptyString => true
  | String _ _ => false
  end.

(** *** Numeric conversions *)

(** Value of [c] as a digit in [radix], if it is one. *)
Definition digit_of (radix : Z) (c : ascii) : option Z :=
  (let n := Z.of_nat (nat_of_ascii c) in
   let d := if (48 <=? n) && (n <=? 57) then Some (n - 48)
            else if (97 <=? n) && (n <=? 122) then Some (n - 87)
            else if (65 <=? n) && (n <=? 90) then Some (n - 55)
            else None in
   match d with
   | Some k => if k <? radix then Some k else None
   | None => None
   end)%Z.

(** Longest run of [radix] digits at the start of [s]: its value, its
    length and what follows. *)
Fixpoint digits (radix : Z) (s : string) (acc : Z) (len : nat)
  : Z * nat * string :=
  match s with
  | String c s' =>
      match digit_of radix c with
      | Some d => digits radix s' (acc * radix + d)%Z (S len)
      | None => (acc, len, s)
      end
  | EmptyString => (acc, len, s)
  end.

Definition strip_sign (s : string) : bool * string :=
  match s with
  | String "-" s' => (true, s')
  | String "+" s' => (false, s')
  | _ => (false, s)
  end.

(** [parseInt(string)] with no radix argument. *)
Definition parseInt_string (s : string) : integer :=
  let '(neg, s1) := strip_sign (trim_start s) in
  let '(radix, s2) :=
    match s1 with
    | String "0" (String "x" r) | String "0" (String "X" r) => (16%Z, r)
    | _ => (10%Z, s1)
    end in
  match digits radix s2 0 0 with
  | (_, O, _) => NaN
  | (z, S _, _) => to_integer neg z
  end.

(** The first digit of the shortest decimal of the double [x > 2^53]. *)
Definition leading_digit (x : Z) : Z :=
  (let '(c, _) := shortest x in
   c / 10 ^ (Z.of_nat (String.length (numeral c)) - 1))%Z.

(** [parseInt(v)]: the argument is converted to a string first.  A
    number below [10^21] prints as a decimal numeral that reads back as
    the number; from [10^21] on it prints in exponent form, of which
    [parseInt] reads the first digit; an infinity prints as a word. *)
Definition parseInt (v : jsval) : integer :=
  match v with
  | VNumber n =>
      match double_of_Z n with
      | Int x =>
          if (Z.abs x <? 10 ^ 21)%Z then Int x
          else Int (Z.sgn x * leading_digit (Z.abs x))
      | Infinity _ | NaN => NaN
      end
  | VString s => parseInt_string s
  | VUndefined | VNull | VBool _ => NaN
  end.

Definition isNaN (i : integer) : bool :=
  match i with
  | NaN => true
  | Int _ | Infinity _ => false
  end.

(** The double nearest to the decimal [m * 10^e] ([m >= 0]), with its
    sign. *)
Definition to_number (negative : bool) (m e : Z) : number :=
  (if m =? 0 then Finite 0 0
   else
     let '(num, den) := if 0 <=? e then (m * 10 ^ e, 1) else (m, 10 ^ (- e)) in
     if (den =? 1) && (num <=? 2 ^ 53) then Finite (signed negative num) 0
     else
       let '(mant, q) := nearest_double num den in
       if overflows mant q then Infinite negative
       else Finite (signed negative mant) q)%Z.

(** Optional exponent part followed by trailing white space. *)
Definition exponent_then_end (s : string) : option Z :=
  match s with
  | String "e" r | String "E" r =>
      let '(neg, r1) := strip_sign r in
      match digits 10 r1 0 0 with
      | (_, O, _) => None
      | (x, S _, rest) => if all_white rest then Some (signed neg x) else None
      end
  | _ => if all_white s then Some 0%Z else None
  end.

Definition radix_literal (radix : Z) (s : string) : number :=
  match digits radix s 0 0 with
  | (_, O, _) => NotANumber
  | (z, S _, rest) => if all_white rest then to_number false z 0
                      else NotANumber
  end.

(** [StringToNumber]: the grammar of string numeric literals, and the
    double nearest to the literal. *)
Definition StringToNumber (s : string) : number :=
  let t := trim_start s in
  if all_white t then Finite 0 0 else
  match t with
  | String "0" (String "x" r) | String "0" (String "X" r) => radix_literal 16 r
  | String "0" (String "o" r) | String "0" (String "O" r) => radix_literal 8 r
  | String "0" (String "b" r) | String "0" (String "B" r) => radix_literal 2 r
  | _ =>
      let '(neg, u) := strip_sign t in
      if String.prefix "Infinity" u then
        if all_white (drop 8 u) then Infinite neg else NotANumber
      else
        let '(ip, ilen, r1) := digits 10 u 0 0 in
        let '(m, flen, r2) :=
          match r1 with
          | String "." r => digits 10 r ip 0
          | _ => (ip, O, r1)
          end in
        if (ilen + flen =? 0)%nat then NotANumber
        else match exponent_then_end r2 with
             | Some x => to_number neg m (x - Z.of_nat flen)
             | None => NotANumber
             end
  end.

(** [ToNumber] *)
Definition ToNumber (v : jsval) : number :=
  match v with
  | VUndefined => NotANumber
  | VNull => Finite 0 0
  | VBool b => Finite (if b then 1 else 0) 0
  | VNumber n =>
      match double_of_Z n with
      | Int x => Finite x 0
      | Infinity negative => Infinite negative
      | NaN => NotANumber
      end
  | VString s => StringToNumber s
  end.

(** [v > k] for a numeric literal [k]: false as soon as the left side
    converts to [NaN]. *)
Definition gt (v : jsval) (k : Z) : bool :=
  match ToNumber v with
  | NotANumber => false
  | Infinite negative => negb negative
  | Finite m e => if (0 <=? e)%Z then (k <? m * 2 ^ e)%Z
                  else (k * 2 ^ (- e) <? m)%Z
  end.

End JS.
Import JS.

Example parseInt_examples :
  parseInt (VString "  42px") = Int 42 /\
  parseInt (VString "-0x1F") = Int (-31) /\
  parseInt (VString "px") = NaN /\
  parseInt (VString "") = NaN /\
  parseInt (VNumber 250) = Int 250 /\
  parseInt (VBool true) = NaN /\
  parseInt (VString "9007199254740993") = Int 9007199254740992 /\
  parseInt (VNumber 9007199254740993) = Int 9007199254740992 /\
  parseInt (VNumber (10 ^ 21)) = Int 1 /\
  parseInt (VNumber (2 ^ 70)) = Int 1 /\
  parseInt (VNumber (10 ^ 400)) = NaN.
Proof. vm_compute; repeat split. Qed.

Example ToString_examples :
  ToString (VNumber 800) = "800" /\
  ToString (VNumber (-12)) = "-12" /\
  ToString (VNumber (2 ^ 60)) = "1152921504606847000" /\
  ToString (VNumber (10 ^ 21)) = "1e+21" /\
  ToString (VNumber (2 ^ 70)) = "1.1805916207174113e+21" /\
  ToString (VNumber (10 ^ 400)) = "Infinity".
Proof. vm_compute; repeat split. Qed.

Example gt_examples :
  gt (VNumber 5000) 3840 = true /\
  gt (VNumber 3840) 3840 = false /\
  gt (VString "5000") 3840 = true /\
  gt (VString " 1e4 ") 3840 = true /\
  gt (VString "3840.5") 3840 = true /\
  gt (VString "3840.0000000000005") 3840 = true /\
  gt (VString "3840.0000000000000001") 3840 = false /\
  gt (VString "2160.0000000000000001") 2160 = false /\
  gt (VString "0x1000") 3840 = true /\
  gt (VString "38e2") 3840 = false /\
  gt (VString "5000px") 3840 = false /\
  gt (VString "-Infinity") 3840 = false /\
  gt (VString "Infinity") 3840 = true /\
  gt (VString "1e999") 3840 = true /\
  gt VNull 3840 = false.
Proof. vm_compute; repeat split. Qed.

Example string_examples :
  includes "selector:" "selector:#done" = true /\
  includes "selector:" "wait selector:#done" = true /\
  includes "selector:" "selecto:#done" = false /\
  replace "selector:" "" "selector:#done" = "#done" /\
  replace "selector:" "" "a selector:b selector:c" = "a b selector:c".
Proof. repeat split; reflexivity. Qed.

(** ** The automation library, events and responses *)

(** Identities of browser processes and of page sessions. *)
Definition Browser := nat.
Definition Page := nat.
Definition Buffer := list Byte.byte.

(** A thrown [Error]; the handlers only read its [message]. *)
Record error : Type := Error { message : string }.

(** How a call settles: it returns (an awaited promise resolves) or it
    throws (the promise rejects). *)
Inductive outcome (A : Type) : Type :=
| Ok (a : A)
| Throw (e : error).
Arguments Ok {A} a.
Arguments Throw {A} e.

(** The methods of a page that resolve to nothing. *)
Inductive method : Type :=
| setViewportSize (width height : integer)
| addStyleTag (content : jsval)
| setContent (html : jsval) (timeout : integer)
| evaluate (script : jsval)
| waitForSelector (selector : string) (timeout : integer)
| waitForTimeout (ms : integer)
| close.

(** [quality : None] is the property set to [undefined]. *)
Record screenshotOptions : Type := ScreenshotOptions {
  type : jsval;
  fullPage : jsval;
  quality : option integer
}.

(** Everything the service asks of its environment.  [chromium_launch k]
    is how the [k]-th call of [chromium.launch] settles (the launch flags
    are a constant of the source and do not appear). *)
Record playwright : Type := Playwright {
  chromium_launch : nat -> outcome Browser;
  isConnected : Browser -> bool;
  newPage : Browser -> outcome Page;
  page_method : Page -> method -> outcome unit;
  screenshot : Page -> screenshotOptions -> outcome Buffer;
  toISOString : string;          (* new Date().toISOString() *)
  NODE_ENV : jsval               (* process.env.NODE_ENV *)
}.

Inductive payload : Type :=
| json (object : list (string * jsval))
| send (data : Buffer).

Record response : Type := Response {
  statusCode : Z;
  headers : list (string * jsval);
  body : payload
}.

Inductive event : Type :=
| console_log (line : string)
| console_error (label : string) (e : error)
| launch (k : nat)
| new_page (b : Browser) (r : outcome Page)
| page_call (p : Page) (m : method) (r : outcome unit)
| page_screenshot (p : Page) (o : screenshotOptions) (r : outcome Buffer)
| respond (r : response).

(** An object literal as [res.json] serialises it: properties whose
    value is [undefined] are left out. *)
Fixpoint stringify (o : list (string * jsval)) : list (string * jsval) :=
  match o with
  | [] => []
  | (k, VUndefined) :: o' => stringify o'
  | kv :: o' => kv :: stringify o'
  end.

Fixpoint property (k : string) (o : list (string * jsval)) : option jsval :=
  match o with
  | [] => None
  | (k', v) :: o' => if k' =? k then Some v else property k o'
  end.

(** The responses among some events, in order. *)
Fixpoint responses (evs : list event) : list response :=
  match evs with
  | [] => []
  | respond r :: evs' => r :: responses evs'
  | _ :: evs' => responses evs'
  end.

(** ** Process state *)

(** [browser] is the module-level variable.  [launches] counts the calls
    of [chromium.launch] and [processes] lists the browsers those calls
    started; the source does not read either. *)
Record world : Type := World {
  browser : option Browser;
  launches : nat;
  processes : list Browser
}.

(** State of a [POST /convert] or [GET /health] handler: the process
    state and the handler's [let page = null]. *)
Record hstate : Type := HState {
  globals : world;
  page : option Page
}.

Definition boot : world := World None 0 [].

(** ** Computations *)

Record result (S A : Type) : Type := Res {
  value : outcome A;
  final : S;
  events : list event
}.
Arguments Res {S A} value final events.
Arguments value {S A} r.
Arguments final {S A} r.
Arguments events {S A} r.

Definition M (S A : Type) : Type := S -> result S A.

Section Monad.
Context {S : Type}.

Definition ret {A} (a : A) : M S A := fun s => Res (Ok a) s [].

Definition bind {A B} (m : M S A) (f : A -> M S B) : M S B := fun s =>
  match m s with
  | Res (Ok a) s1 e1 =>
      match f a s1 with
      | Res v s2 e2 => Res v s2 (e1 ++ e2)
      end
  | Res (Throw e) s1 e1 => Res (Throw e) s1 e1
  end.

Definition throw {A} (e : error) : M S A := fun s => Res (Throw e) s [].

Definition emit (ev : event) : M S unit := fun s => Res (Ok tt) s [ev].

Definition gets {A} (f : S -> A) : M S A := fun s => Res (Ok (f s)) s [].

Definition modify (f : S -> S) : M S unit := fun s => Res (Ok tt) (f s) [].

(** [try { m } catch (error) { h error }] *)
Definition try_catch {A} (m : M S A) (h : error -> M S A) : M S A := fun s =>
  match m s with
  | Res (Ok a) s1 e1 => Res (Ok a) s1 e1
  | Res (Throw e) s1 e1 =>
      match h e s1 with
      | Res v s2 e2 => Res v s2 (e1 ++ e2)
      end
  end.

(** [try { m } finally { f }]: the block's completion stands unless [f]
    itself throws. *)
Definition try_finally {A} (m : M S A) (f : M S unit) : M S A := fun s =>
  match m s with
  | Res v s1 e1 =>
      match f s1 with
      | Res (Ok _) s2 e2 => Res v s2 (e1 ++ e2)
      | Res (Throw e) s2 e2 => Res (Throw e) s2 (e1 ++ e2)
      end
  end.

(** [if (c) { m }] *)
Definition when (c : bool) (m : M S unit) : M S unit :=
  if c then m else ret tt.
End Monad.

#[global] Instance M_ret {S} : MRet (M S) := @ret S.
#[global] Instance M_bind {S} : MBind (M S) := fun A B f m => bind m f.

(** A computation on the process state, run inside a handler. *)
Definition lift {A} (m : M world A) : M hstate A := fun s =>
  match m (globals s) with
  | Res v w evs => Res v (HState w (page s)) evs
  end.

(** [!!x] for a variable holding an object or [null]. *)
Definition isSome {A} (x : option A) : bool :=
  match x with
  | Some _ => true
  | None => false
  end.

(** ** The shared browser *)

Section Service.
Variable pw : playwright.

(** [await chromium.launch({...})], resolved on the spot. *)
Definition call_launch : M world Browser := fun w =>
  let k := launches w in
  let w1 := World (browser w) (S k) (processes w) in
  match chromium_launch pw k with
  | Ok b => Res (Ok b) (World (browser w1) (launches w1) (processes w1 ++ [b]))
                [launch k]
  | Throw e => Res (Throw e) w1 [launch k]
  end.

(** [initBrowser()] when nothing else runs between its call and its
    return. *)
Definition initBrowser : M world (option Browser) :=
  try_catch
    (held ← gets browser;
     when (negb (isSome held))
       (emit (console_log "Launching browser...");;
        b ← call_launch;
        modify (fun w => World (Some b) (launches w) (processes w));;
        emit (console_log "Browser launched successfully"));;
     gets browser)
    (fun error =>
       emit (console_error "Failed to launch browser:" error);;
       throw error).

(** *** [initBrowser] as a coroutine

    An [async] function runs without interruption up to its next
    [await]; other callers may run while it is suspended. *)
Inductive call_state : Type :=
| Entry
| AwaitLaunch (k : nat)
| Returned (b : option Browser)
| Thrown (e : error).

Definition resume (t : call_state) (w : world)
  : call_state * world * list event :=
  match t with
  | Entry =>
      match browser w with
      | None =>
          (AwaitLaunch (launches w),
           World (browser w) (S (launches w)) (processes w),
           [console_log "Launching browser..."; launch (launches w)])
      | Some _ => (Returned (browser w), w, [])
      end
  | AwaitLaunch k =>
      match chromium_launch pw k with
      | Ok b =>
          let w' := World (Some b) (launches w) (processes w ++ [b]) in
          (Returned (browser w'), w',
           [console_log "Browser launched successfully"])
      | Throw e =>
          (Thrown e, w, [console_error "Failed to launch browser:" e])
      end
  | Returned _ | Thrown _ => (t, w, [])
  end.

(** Several calls in flight over the one process state. *)
Record system : Type := System {
  calls : list call_state;
  shared : world;
  console : list event
}.

(** The scheduler lets call number [i] run to its next suspension. *)
Definition schedule (c : system) (i : nat) : system :=
  match calls c !! i with
  | Some t =>
      let '(t', w', evs) := resume t (shared c) in
      System (<[i := t']> (calls c)) w' (console c ++ evs)
  | None => c
  end.

Definition run (order : list nat) (c : system) : system :=
  fold_left schedule order c.

(** [n] calls made on a freshly started process. *)
Definition concurrent_calls (n : nat) : system :=
  System (repeat Entry n) boot [].

(** ** [GET /health] *)

Definition health : M world unit :=
  try_catch
    (browserInstance ← initBrowser;
     (* browserInstance && !browserInstance.isConnected() === false *)
     let isHealthy :=
       match browserInstance with
       | Some b => Bool.eqb (negb (isConnected pw b)) false
       | None => false
       end in
     emit (respond (Response 200 [] (json (stringify
       [("status", VString (if isHealthy then "healthy" else "unhealthy"));
        ("timestamp", VString (toISOString pw));
        ("browser",
         VString (if isHealthy then "connected" else "disconnected"))])))))
    (fun error =>
       emit (respond (Response 500 [] (json (stringify
         [("status", VString "unhealthy");
          ("error", VString (message error));
          ("timestamp", VString (toISOString pw))]))))).

(** ** [POST /convert] *)

Record request : Type := Request {
  req_html : jsval;
  req_width : jsval;
  req_height : jsval;
  req_fullPage : jsval;
  req_quality : jsval;
  req_format : jsval;
  req_waitFor : jsval;
  req_css : jsval;
  req_javascript : jsval;
  req_timeout : jsval
}.

Definition call_newPage (b : option Browser) : M hstate Page := fun s =>
  match b with
  | Some b => let r := newPage pw b in Res r s [new_page b r]
  | None =>
      Res (Throw (Error "Cannot read properties of null (reading 'newPage')"))
          s []
  end.

Definition call (p : Page) (m : method) : M hstate unit := fun s =>
  let r := page_method pw p m in Res r s [page_call p m r].

Definition call_screenshot (p : Page) (o : screenshotOptions)
  : M hstate Buffer := fun s =>
  let r := screenshot pw p o in Res r s [page_screenshot p o r].

(** What the handler does about [waitFor]. *)
Inductive wait : Type :=
| no_wait
| for_selector (selector : string)
| for_timeout (ms : integer).

(** [typeof waitFor === 'string' && waitFor.includes('selector:')] *)
Definition has_selector (waitFor : jsval) : bool :=
  match waitFor with
  | VString s => includes "selector:" s
  | _ => false
  end.

(** [typeof waitFor === 'number'] *)
Definition is_number (waitFor : jsval) : bool :=
  match waitFor with
  | VNumber _ => true
  | _ => false
  end.

Definition wait_for (waitFor : jsval) : wait :=
  if truthy waitFor then
    if has_selector waitFor then
      for_selector (replace "selector:" "" (ToString waitFor))
    else if is_number waitFor || negb (isNaN (parseInt waitFor)) then
      for_timeout (parseInt waitFor)
    else no_wait
  else no_wait.

Definition screenshot_options (format fullPage quality : jsval)
  : screenshotOptions :=
  {| type := format;
     fullPage := fullPage;
     quality := if strict_eq_string format "jpeg"
                then Some (parseInt quality) else None |}.

(** Status code and text chosen by the [catch] block. *)
Definition error_status (msg : string) : Z * string :=
  if includes "timeout" msg then
    (408%Z, "Request timeout - page took too long to load")
  else if includes "net::ERR_" msg then
    (400%Z, "Network error loading resources")
  else if includes "Protocol error" msg then
    (500%Z, "Browser protocol error")
  else (500%Z, "Internal server error during conversion").

Definition error_response (e : error) : response :=
  let '(statusCode, errorMessage) := error_status (message e) in
  Response statusCode [] (json (stringify
    [("error", VString errorMessage);
     ("details", if strict_eq_string (NODE_ENV pw) "development"
                 then VString (message e) else VUndefined);
     ("timestamp", VString (toISOString pw))])).

Definition html_required : response :=
  Response 400 [] (json (stringify
    [("error", VString "HTML content is required");
     ("message",
      VString "Please provide HTML content in the request body")])).

Definition dimensions_too_large : response :=
  Response 400 [] (json (stringify
    [("error", VString "Dimensions too large");
     ("message", VString "Maximum dimensions are 3840x2160")])).

(** [res.set] hands every value to the HTTP layer, which throws on a
    value holding a character other than TAB, U+0020..U+007E and
    U+0080..U+00FF.  In UTF-8 those are the bytes below 32 except TAB,
    the byte 127, and the lead bytes from 196 on. *)
Definition legal_header_byte (c : ascii) : bool :=
  let n := nat_of_ascii c in
  ((n =? 9) || ((32 <=? n) && (n <=? 126)) || ((128 <=? n) && (n <=? 195)))%nat.

Fixpoint legal_header_value (s : string) : bool :=
  match s with
  | EmptyString => true
  | String c s' => legal_header_byte c && legal_header_value s'
  end.

Definition quoted (s : string) : string :=
  String (ascii_of_nat 34) (s ++ String (ascii_of_nat 34) EmptyString).

Definition invalid_header (name : string) : error :=
  Error ("Invalid character in header content [" ++ quoted name ++ "]").

Definition image_response (format : jsval) (data : Buffer) : response :=
  Response 200
    [("Content-Type", VString ("image/" ++ ToString format));
     ("Content-Length", VNumber (Z.of_nat (length data)));
     ("Cache-Control", VString "no-cache, no-store, must-revalidate");
     ("Pragma", VString "no-cache");
     ("Expires", VString "0")]
    (send data).

(** The [try] block. *)
Definition convert_try (r : request) : M hstate unit :=
  let html := req_html r in
  let width := with_default (VNumber 1280) (req_width r) in
  let height := with_default (VNumber 720) (req_height r) in
  let fullPage := with_default (VBool false) (req_fullPage r) in
  let quality := with_default (VNumber 100) (req_quality r) in
  let format := with_default (VString "png") (req_format r) in
  let waitFor := with_default VNull (req_waitFor r) in
  let css := with_default (VString "") (req_css r) in
  let javascript := with_default (VString "") (req_javascript r) in
  let timeout := with_default (VNumber 30000) (req_timeout r) in
  if negb (truthy html) then emit (respond html_required)
  else if gt width 3840 || gt height 2160 then
    emit (respond dimensions_too_large)
  else
    browserInstance ← lift initBrowser;
    p ← call_newPage browserInstance;
    modify (fun s => HState (globals s) (Some p));;
    call p (setViewportSize (parseInt width) (parseInt height));;
    when (truthy css) (call p (addStyleTag css));;
    call p (setContent html (parseInt timeout));;
    when (truthy javascript) (call p (evaluate javascript));;
    match wait_for waitFor with
    | for_selector selector =>
        call p (waitForSelector selector (parseInt timeout))
    | for_timeout ms => call p (waitForTimeout ms)
    | no_wait => ret tt
    end;;
    data ← call_screenshot p (screenshot_options format fullPage quality);
    (* res.set({...}): [Content-Type] is the first header set and the
       only one that depends on the request *)
    (if legal_header_value ("image/" ++ ToString format) then ret tt
     else throw (invalid_header "Content-Type"));;
    emit (respond (image_response format data)).

(** The [catch] block. *)
Definition convert_catch (error : error) : M hstate unit :=
  emit (console_error "Conversion error:" error);;
  emit (respond (error_response error)).

(** The [finally] block. *)
Definition convert_finally : M hstate unit :=
  held ← gets page;
  match held with
  | Some p =>
      try_catch (call p close)
        (fun closeError =>
           emit (console_error "Error closing page:" closeError))
  | None => ret tt
  end.

Definition convert (r : request) : M hstate unit :=
  modify (fun s => HState (globals s) None);;
  try_finally (try_catch (convert_try r) convert_catch) convert_finally.
End Service.


(** ** Sample environments *)

(** A browser on which everything succeeds; the [k]-th launch starts
    process [k] and every page is page [1]. *)
Definition ideal : playwright :=
  {| chromium_launch := fun k => Ok k;
     isConnected := fun _ => true;
     newPage := fun _ => Ok 1;
     page_method := fun _ _ => Ok tt;
     screenshot := fun _ _ => Ok [Byte.x89; Byte.x50; Byte.x4e; Byte.x47];
     toISOString := "2024-05-01T12:00:00.000Z";
     NODE_ENV := VString "production" |}.

Definition with_launch (f : nat -> outcome Browser) (pw : playwright)
  : playwright :=
  {| chromium_launch := f;
     isConnected := isConnected pw;
     newPage := newPage pw;
     page_method := page_method pw;
     screenshot := screenshot pw;
     toISOString := toISOString pw;
     NODE_ENV := NODE_ENV pw |}.

Definition with_method (f : Page -> method -> outcome unit) (pw : playwright)
  : playwright :=
  {| chromium_launch := chromium_launch pw;
     isConnected := isConnected pw;
     newPage := newPage pw;
     page_method := f;
     screenshot := screenshot pw;
     toISOString := toISOString pw;
     NODE_ENV := NODE_ENV pw |}.

(** The same environment except for how closing a page ends. *)
Definition with_close (f : Page -> outcome unit) (pw : playwright)
  : playwright :=
  with_method (fun p m => match m with
                          | close => f p
                          | _ => page_method pw p m
                          end) pw.

(** A request body with only [html] (and optionally more) set. *)
Definition only_html (html : string) : request :=
  {| req_html := VString html;
     req_width := VUndefined;
     req_height := VUndefined;
     req_fullPage := VUndefined;
     req_quality := VUndefined;
     req_format := VUndefined;
     req_waitFor := VUndefined;
     req_css := VUndefined;
     req_javascript := VUndefined;
     req_timeout := VUndefined |}.

Definition empty_body : request :=
  {| req_html := VUndefined;
     req_width := VUndefined;
     req_height := VUndefined;
     req_fullPage := VUndefined;
     req_quality := VUndefined;
     req_format := VUndefined;
     req_waitFor := VUndefined;
     req_css := VUndefined;
     req_javascript := VUndefined;
     req_timeout := VUndefined |}.

(** * Properties *)

(** ** [initBrowser] *)

Section InitBrowser.
Variable pw : playwright.

(** The three ways a call of [initBrowser] can go. *)
Lemma initBrowser_cases (w : world) :
  initBrowser pw w =
  match browser w with
  | Some b => Res (Ok (Some b)) w []
  | None =>
      match chromium_launch pw (launches w) with
      | Ok b =>
          Res (Ok (Some b))
              (World (Some b) (S (launches w)) (processes w ++ [b]))
              [console_log "Launching browser..."; launch (launches w);
               console_log "Browser launched successfully"]
      | Throw e =>
          Res (Throw e) (World None (S (launches w)) (processes w))
              [console_log "Launching browser..."; launch (launches w);
               console_error "Failed to launch browser:" e]
      end
  end.
Proof.
  unfold initBrowser, try_catch, mbind, M_bind, bind, when, gets, emit,
    modify, throw, call_launch.
  destruct w as [[b|] k ps]; cbn; [reflexivity|].
  destruct (chromium_launch pw k); reflexivity.
Qed.

(** Run without interruption, the coroutine is [initBrowser]. *)
Lemma initBrowser_resume (w w1 w2 : world) (t1 t2 : call_state)
      (e1 e2 : list event) :
  resume pw Entry w = (t1, w1, e1) ->
  resume pw t1 w1 = (t2, w2, e2) ->
  final (initBrowser pw w) = w2 /\
  events (initBrowser pw w) = e1 ++ e2 /\
  match value (initBrowser pw w) with
  | Ok b => t2 = Returned b
  | Throw e => t2 = Thrown e
  end.
Proof.
  rewrite initBrowser_cases.
  destruct w as [[b|] k ps]; cbn.
  - intros [= <- <- <-]; cbn; intros [= <- <- <-]; cbn; auto.
  - intros [= <- <- <-]; cbn.
    destruct (chromium_launch pw k); intros [= <- <- <-]; cbn; auto.
Qed.

(** A caller that finds a handle receives it and launches nothing. *)
Lemma resume_held (w : world) (b : Browser) :
  browser w = Some b -> resume pw Entry w = (Returned (Some b), w, []).
Proof. intros H; cbn; rewrite H; reflexivity. Qed.

(** At most one process is live, and it is the one in [browser]. *)
Definition single (w : world) : Prop :=
  match browser w with
  | Some b => processes w = [b]
  | None => processes w = []
  end.

Lemma boot_single : single boot.
Proof. reflexivity. Qed.

(** Calls that do not overlap keep a single process. *)
Lemma initBrowser_single (w : world) :
  single w -> single (final (initBrowser pw w)).
Proof.
  rewrite initBrowser_cases; unfold single.
  destruct w as [[b|] k ps]; cbn; [auto|].
  intros ->.
  destruct (chromium_launch pw k); reflexivity.
Qed.
End InitBrowser.

(** *** Interleaved callers *)

(** Callers that have not yet tested [browser]. *)
Definition entering (t : call_state) : nat :=
  match t with
  | Entry => 1
  | _ => 0
  end.

Fixpoint pending (ts : list call_state) : nat :=
  match ts with
  | [] => 0
  | t :: ts' => entering t + pending ts'
  end.

Lemma pending_repeat (n : nat) : pending (repeat Entry n) = n.
Proof. induction n as [|n IH]; cbn; [reflexivity|rewrite IH; reflexivity]. Qed.

Lemma pending_insert (ts : list call_state) (i : nat) (t t' : call_state) :
  ts !! i = Some t ->
  pending (<[i := t']> ts) + entering t = pending ts + entering t'.
Proof.
  revert i; induction ts as [|u ts IH]; intros [|i] H; simpl in *;
    try discriminate.
  - injection H as ->; lia.
  - specialize (IH i H); lia.
Qed.

(** A step of one caller launches only if that caller was entering. *)
Lemma resume_launches (pw : playwright) (t t' : call_state) (w w' : world)
      (evs : list event) :
  resume pw t w = (t', w', evs) ->
  launches w' + entering t' <= launches w + entering t.
Proof.
  destruct t as [|k|b|e]; cbn.
  - destruct (browser w); intros [= <- <- <-]; cbn; lia.
  - destruct (chromium_launch pw k); intros [= <- <- <-]; cbn; lia.
  - intros [= <- <- <-]; cbn; lia.
  - intros [= <- <- <-]; cbn; lia.
Qed.

Lemma schedule_launches (pw : playwright) (c : system) (i : nat) :
  launches (shared (schedule pw c i)) + pending (calls (schedule pw c i))
  <= launches (shared c) + pending (calls c).
Proof.
  unfold schedule.
  destruct (calls c !! i) as [t|] eqn:Hi; [|lia].
  destruct (resume pw t (shared c)) as [[t' w'] evs] eqn:Hr; cbn.
  pose proof (resume_launches _ _ _ _ _ _ Hr).
  pose proof (pending_insert _ _ _ t' Hi).
  lia.
Qed.

Lemma run_launches (pw : playwright) (order : list nat) (c : system) :
  launches (shared (run pw order c)) + pending (calls (run pw order c))
  <= launches (shared c) + pending (calls c).
Proof.
  unfold run; revert c.
  induction order as [|i order IH]; intros c; cbn; [lia|].
  specialize (IH (schedule pw c i)).
  pose proof (schedule_launches pw c i).
  lia.
Qed.

(** However [n] callers are interleaved, each launches at most once. *)
Lemma launches_at_most_callers (pw : playwright) (n : nat)
      (order : list nat) :
  launches (shared (run pw order (concurrent_calls n))) <= n.
Proof.
  pose proof (run_launches pw order (concurrent_calls n)) as H.
  cbn in H; rewrite pending_repeat in H; lia.
Qed.

(** Two callers; both enter before either launch settles. *)
Definition overlapping : system :=
  run ideal [0; 1; 0; 1] (concurrent_calls 2).

(** C1 (the code departs from it): two callers that both enter
    [initBrowser] before either launch has settled each call
    [chromium.launch]; with a browser that starts, two processes are live,
    the callers receive different handles and the first process is no
    longer referenced.  Hence "at most one launch for every interleaving"
    does not hold of the source. *)
Theorem initBrowser_double_launch :
  (forall pw, launches (shared (run pw [0; 1] (concurrent_calls 2))) = 2) /\
  (forall pw,
      ~ (forall n order,
            launches (shared (run pw order (concurrent_calls n))) <= 1)) /\
  launches (shared overlapping) = 2 /\
  processes (shared overlapping) = [0; 1] /\
  calls overlapping = [Returned (Some 0); Returned (Some 1)] /\
  browser (shared overlapping) = Some 1.
Proof.
  split; [reflexivity|].
  split; [|repeat split].
  intros pw H.
  specialize (H 2 [0; 1]).
  cbn in H. lia.
Qed.

(** C8: when the launch made by [initBrowser] fails, the caller gets that
    error, [browser] is still unset, and the next call launches again,
    returning and storing the new handle if that launch succeeds. *)
Theorem initBrowser_failure_not_cached
  (pw : playwright) (w : world) (e : error) :
  browser w = None ->
  chromium_launch pw (launches w) = Throw e ->
  value (initBrowser pw w) = Throw e /\
  browser (final (initBrowser pw w)) = None /\
  processes (final (initBrowser pw w)) = processes w /\
  launches (final (initBrowser pw w)) = S (launches w) /\
  In (launch (S (launches w)))
     (events (initBrowser pw (final (initBrowser pw w)))) /\
  launches (final (initBrowser pw (final (initBrowser pw w))))
  = S (S (launches w)) /\
  forall b, chromium_launch pw (S (launches w)) = Ok b ->
            value (initBrowser pw (final (initBrowser pw w))) = Ok (Some b) /\
            browser (final (initBrowser pw (final (initBrowser pw w))))
            = Some b.
Proof.
  intros Hnone Hfail.
  rewrite (initBrowser_cases pw w), Hnone, Hfail; cbn.
  rewrite initBrowser_cases; cbn.
  destruct (chromium_launch pw (S (launches w))) eqn:E; cbn;
    (repeat (split; [solve [auto]|])); intros b' Hb; try discriminate.
  injection Hb as <-; auto.
Qed.

(** A first launch that fails, then one that succeeds. *)
Definition flaky : playwright :=
  with_launch (fun k => match k with
                        | O => Throw (Error "Failed to launch chromium")
                        | S _ => Ok k
                        end) ideal.

Lemma initBrowser_failure_not_cached_witness :
  value (initBrowser flaky boot) = Throw (Error "Failed to launch chromium") /\
  browser (final (initBrowser flaky boot)) = None /\
  value (initBrowser flaky (final (initBrowser flaky boot))) = Ok (Some 1).
Proof.
  destruct (initBrowser_failure_not_cached flaky boot
              (Error "Failed to launch chromium") eq_refl eq_refl)
    as (Hv & Hb & _ & _ & _ & _ & Hnext).
  destruct (Hnext 1 eq_refl) as [Hv' _].
  exact (conj Hv (conj Hb Hv')).
Defined.

(** ** [GET /health] *)

(** The double negation in the handler is the plain test. *)
Lemma not_connected_is_false (c : bool) : Bool.eqb (negb c) false = c.
Proof. destruct c; reflexivity. Qed.

(** C7: the health check always answers, with exactly one response that
    carries a timestamp; its status is 'healthy' (browser 'connected',
    code 200) exactly when a browser handle is held and that browser says
    it is connected, 'unhealthy' otherwise; and when [initBrowser] throws
    the answer is a 500 with status 'unhealthy' and the error's message. *)
Theorem health_reports (pw : playwright) (w : world) :
  value (health pw w) = Ok tt /\
  exists resp o,
    responses (events (health pw w)) = [resp] /\
    body resp = json o /\
    property "timestamp" o = Some (VString (toISOString pw)) /\
    (property "status" o = Some (VString "healthy") /\
     property "browser" o = Some (VString "connected") /\
     statusCode resp = 200%Z
     \/
     property "status" o = Some (VString "unhealthy")) /\
    (property "status" o = Some (VString "healthy") <->
     exists b, browser (final (health pw w)) = Some b /\
               isConnected pw b = true) /\
    (forall e, value (initBrowser pw w) = Throw e ->
               statusCode resp = 500%Z /\
               property "status" o = Some (VString "unhealthy") /\
               property "error" o = Some (VString (message e))).
Proof.
  unfold health, try_catch, mbind, M_bind, bind, emit.
  rewrite initBrowser_cases.
  destruct (browser w) as [b|] eqn:Hb;
    [|destruct (chromium_launch pw (launches w)) as [b|e]];
    cbn; (split; [reflexivity|]); do 2 eexists;
    (split; [reflexivity|]); cbn; (split; [reflexivity|]).
  1,2: destruct (isConnected pw b) eqn:Hc; cbn;
       (split; [reflexivity|]); (split; [auto|]);
       (split; [|discriminate]).
  - split; eauto.
  - split; [discriminate|intros (b' & Hb' & Hc'); congruence].
  - split; eauto.
  - split; [discriminate|intros (b' & Hb' & Hc'); congruence].
  - split; [reflexivity|]; split; [auto|]; split.
    + split; [discriminate|intros (b' & Hb' & _); discriminate].
    + intros e' He'; injection He' as <-; auto.
Qed.

(** ** [POST /convert] *)

(** *** What a run did, read off its events *)

(** Pages that were opened. *)
Fixpoint opened (evs : list event) : list Page :=
  match evs with
  | [] => []
  | new_page _ (Ok p) :: evs' => p :: opened evs'
  | _ :: evs' => opened evs'
  end.

(** Pages on which [close] was called. *)
Fixpoint closed (evs : list event) : list Page :=
  match evs with
  | [] => []
  | page_call p close _ :: evs' => p :: closed evs'
  | _ :: evs' => closed evs'
  end.

(** The events before the first call of [close]. *)
Fixpoint until_close (evs : list event) : list event :=
  match evs with
  | [] => []
  | page_call _ close _ :: _ => []
  | ev :: evs' => ev :: until_close evs'
  end.

(** Errors thrown by [close], and errors logged by the [finally] block. *)
Fixpoint close_errors (evs : list event) : list error :=
  match evs with
  | [] => []
  | page_call _ close (Throw e) :: evs' => e :: close_errors evs'
  | _ :: evs' => close_errors evs'
  end.

Fixpoint logged_close_errors (evs : list event) : list error :=
  match evs with
  | [] => []
  | console_error label e :: evs' =>
      if label =? "Error closing page:" then e :: logged_close_errors evs'
      else logged_close_errors evs'
  | _ :: evs' => logged_close_errors evs'
  end.

(** The screenshot calls, with their options and how they ended. *)
Fixpoint screenshots (evs : list event)
  : list (screenshotOptions * outcome Buffer) :=
  match evs with
  | [] => []
  | page_screenshot _ o r :: evs' => (o, r) :: screenshots evs'
  | _ :: evs' => screenshots evs'
  end.

(** The calls of [waitForSelector] and [waitForTimeout]. *)
Fixpoint waits (evs : list event) : list method :=
  match evs with
  | [] => []
  | page_call _ (waitForSelector sel t) _ :: evs' =>
      waitForSelector sel t :: waits evs'
  | page_call _ (waitForTimeout ms) _ :: evs' =>
      waitForTimeout ms :: waits evs'
  | _ :: evs' => waits evs'
  end.

(** Whether the library was asked for anything. *)
Fixpoint touches_browser (evs : list event) : bool :=
  match evs with
  | [] => false
  | launch _ :: _ | new_page _ _ :: _ | page_call _ _ _ :: _
  | page_screenshot _ _ _ :: _ => true
  | _ :: evs' => touches_browser evs'
  end.

(** *** Running the handler symbolically *)

Ltac unfold_handler :=
  unfold convert, convert_try, convert_catch, convert_finally, try_finally,
    try_catch, lift, call_newPage, call, call_screenshot, when,
    mbind, M_bind, bind, ret, emit, gets, modify, throw.

Ltac simpl_handler :=
  cbn -[truthy gt with_default parseInt wait_for ToString strict_eq_string
        error_response image_response screenshot_options html_required
        dimensions_too_large initBrowser String.eqb legal_header_value
        invalid_header append].

(** Follows the handler in program order, splitting on each outcome the
    environment can give. *)
Ltac explore pw :=
  simpl_handler;
  match goal with
  | |- context [negb (truthy ?h)] =>
      destruct (truthy h) eqn:?; cbn [negb]; explore pw
  | |- context [if gt ?a ?k || gt ?b ?l then _ else _] =>
      destruct (gt a k || gt b l) eqn:?; explore pw
  | |- context [initBrowser pw ?w] =>
      rewrite (initBrowser_cases pw w);
      destruct (browser w) eqn:?;
      [|destruct (chromium_launch pw (launches w)) eqn:?]; explore pw
  | |- context [newPage pw ?b] => destruct (newPage pw b) eqn:?; explore pw
  | |- context [page_method pw ?p (setViewportSize ?a ?b)] =>
      destruct (page_method pw p (setViewportSize a b)) as [[]|?] eqn:?;
      explore pw
  | |- context [if truthy ?c then _ else _] =>
      destruct (truthy c) eqn:?; explore pw
  | |- context [page_method pw ?p (addStyleTag ?a)] =>
      destruct (page_method pw p (addStyleTag a)) as [[]|?] eqn:?; explore pw
  | |- context [page_method pw ?p (setContent ?a ?b)] =>
      destruct (page_method pw p (setContent a b)) as [[]|?] eqn:?; explore pw
  | |- context [page_method pw ?p (evaluate ?a)] =>
      destruct (page_method pw p (evaluate a)) as [[]|?] eqn:?; explore pw
  | |- context [match wait_for ?v with _ => _ end] =>
      destruct (wait_for v) eqn:?; explore pw
  | |- context [page_method pw ?p (waitForSelector ?a ?b)] =>
      destruct (page_method pw p (waitForSelector a b)) as [[]|?] eqn:?;
      explore pw
  | |- context [page_method pw ?p (waitForTimeout ?a)] =>
      destruct (page_method pw p (waitForTimeout a)) as [[]|?] eqn:?;
      explore pw
  | |- context [screenshot pw ?p ?o] =>
      destruct (screenshot pw p o) eqn:?; explore pw
  | |- context [if legal_header_value ?v then _ else _] =>
      destruct (legal_header_value v) eqn:?; explore pw
  | |- context [page_method pw ?p close] =>
      destruct (page_method pw p close) as [[]|?] eqn:?; explore pw
  | _ => idtac
  end.

Ltac run_handler pw := unfold_handler; explore pw.

Section Convert.
Variable pw : playwright.

Lemma gt_with_default (d v : jsval) (k : Z) :
  gt v k = true -> gt (with_default d v) k = true.
Proof. destruct v; cbn; auto; discriminate. Qed.

(** The [catch] block answers 408, 400 or 500. *)
Lemma error_status_code (msg : string) :
  fst (error_status msg) =
  (if includes "timeout" msg then 408
   else if includes "net::ERR_" msg then 400
   else 500)%Z.
Proof.
  unfold error_status.
  destruct (includes "timeout" msg); [reflexivity|].
  destruct (includes "net::ERR_" msg); [reflexivity|].
  destruct (includes "Protocol error" msg); reflexivity.
Qed.

Lemma error_response_code (e : error) :
  statusCode (error_response pw e) = fst (error_status (message e)).
Proof.
  unfold error_response.
  destruct (error_status (message e)); reflexivity.
Qed.

Lemma error_response_not_200 (e : error) :
  statusCode (error_response pw e) <> 200%Z.
Proof.
  rewrite error_response_code, error_status_code.
  destruct (includes "timeout" (message e)); [discriminate|].
  destruct (includes "net::ERR_" (message e)); discriminate.
Qed.

Lemma error_response_timestamp (e : error) :
  exists o, body (error_response pw e) = json o /\
            property "timestamp" o = Some (VString (toISOString pw)) /\
            property "error" o
            = Some (VString (snd (error_status (message e)))).
Proof.
  unfold error_response.
  destruct (error_status (message e)) as [c t]; cbn.
  eexists; split; [reflexivity|].
  destruct (strict_eq_string (NODE_ENV pw) "development"); cbn; auto.
Qed.

(** The handler never lets an exception out: every run completes. *)
Lemma convert_completes (r : request) (s : hstate) :
  value (convert pw r s) = Ok tt.
Proof. run_handler pw; reflexivity. Qed.

(** Exactly one response per request. *)
Lemma convert_responds_once (r : request) (s : hstate) :
  length (responses (events (convert pw r s))) = 1.
Proof. run_handler pw; reflexivity. Qed.

(** What is sent does not depend on the [finally] block. *)
Lemma responses_before_finally (r : request) (s : hstate) :
  responses (events (convert pw r s)) =
  responses (events (try_catch (convert_try pw r) (convert_catch pw)
                               (HState (globals s) None))).
Proof. run_handler pw; reflexivity. Qed.

(** How [close] ends is not consulted before the [finally] block. *)
Lemma guarded_with_close (f : Page -> outcome unit) (r : request)
      (s : hstate) :
  try_catch (convert_try (with_close f pw) r)
            (convert_catch (with_close f pw)) s =
  try_catch (convert_try pw r) (convert_catch pw) s.
Proof.
  unfold try_catch.
  replace (convert_try (with_close f pw) r s) with (convert_try pw r s).
  - destruct (convert_try pw r s) as [[u|e] s1 e1]; reflexivity.
  - reflexivity.
Qed.
End Convert.

Lemma opened_In (evs : list event) (b : Browser) (p : Page) :
  In (new_page b (Ok p)) evs -> In p (opened evs).
Proof.
  induction evs as [|ev evs IH]; cbn; [auto|].
  intros [->|H]; [left; reflexivity|].
  destruct ev as [| | |b' [p'|]| | |]; cbn; auto.
Qed.

Lemma closed_In (evs : list event) (p : Page) :
  In p (closed evs) -> exists res, In (page_call p close res) evs.
Proof.
  induction evs as [|ev evs IH]; cbn; [contradiction|].
  assert (Hrest : In p (closed evs) ->
                  exists res, ev = page_call p close res \/
                              In (page_call p close res) evs).
  { intros H; destruct (IH H) as [res Hres]; eauto. }
  destruct ev as [| | | |p' m res| |]; auto.
  destruct m; auto.
  intros [->|H]; [eauto|auto].
Qed.

(** C2: every page the handler opened is closed, on every path through
    the handler: the pages on which [close] is called are exactly the
    pages opened.  The response is sent before [close] is called; an
    error thrown by [close] is logged and the handler still completes;
    and the response is the same however [close] ends. *)
Theorem convert_closes_page (pw : playwright) (r : request) (s : hstate) :
  closed (events (convert pw r s)) = opened (events (convert pw r s)) /\
  (forall b p, In (new_page b (Ok p)) (events (convert pw r s)) ->
               exists res, In (page_call p close res)
                              (events (convert pw r s))) /\
  responses (until_close (events (convert pw r s)))
  = responses (events (convert pw r s)) /\
  logged_close_errors (events (convert pw r s))
  = close_errors (events (convert pw r s)) /\
  value (convert pw r s) = Ok tt /\
  forall f, responses (events (convert (with_close f pw) r s))
            = responses (events (convert pw r s)).
Proof.
  assert (Hsame : closed (events (convert pw r s))
                  = opened (events (convert pw r s)))
    by (run_handler pw; reflexivity).
  split; [exact Hsame|].
  split; [|split; [|split; [|split]]].
  - intros b p Hopen.
    apply closed_In; rewrite Hsame.
    exact (opened_In _ b p Hopen).
  - run_handler pw; reflexivity.
  - run_handler pw; reflexivity.
  - apply convert_completes.
  - intros f.
    rewrite !responses_before_finally, guarded_with_close.
    reflexivity.
Qed.

(** C3: a request whose [html] is absent or empty is answered 400 'HTML
    content is required'; nothing is asked of the browser, no page is
    opened and the process state is unchanged. *)
Theorem convert_requires_html (pw : playwright) (r : request) (s : hstate) :
  req_html r = VUndefined \/ req_html r = VString "" ->
  convert pw r s
  = Res (Ok tt) (HState (globals s) None) [respond html_required] /\
  statusCode html_required = 400%Z /\
  touches_browser (events (convert pw r s)) = false /\
  opened (events (convert pw r s)) = [].
Proof.
  intros H.
  assert (Hrun : convert pw r s
                 = Res (Ok tt) (HState (globals s) None)
                       [respond html_required]).
  { unfold_handler. destruct H as [-> | ->]; reflexivity. }
  rewrite Hrun; repeat split.
Qed.

Lemma convert_requires_html_witness :
  (req_html empty_body = VUndefined \/ req_html empty_body = VString "") /\
  convert ideal empty_body (HState boot None)
  = Res (Ok tt) (HState boot None) [respond html_required] /\
  statusCode html_required = 400%Z /\
  touches_browser (events (convert ideal empty_body (HState boot None)))
  = false /\
  opened (events (convert ideal empty_body (HState boot None))) = [].
Proof.
  split; [left; reflexivity|].
  apply (convert_requires_html ideal empty_body (HState boot None)).
  left; reflexivity.
Defined.

(** C4: a request with [width > 3840] or [height > 2160] is answered 400
    whatever its other fields are (with 'HTML content is required' when
    [html] is missing as well, 'Dimensions too large' otherwise); nothing
    is asked of the browser, no page is opened and the process state is
    unchanged. *)
Theorem convert_rejects_large (pw : playwright) (r : request) (s : hstate) :
  gt (req_width r) 3840 = true \/ gt (req_height r) 2160 = true ->
  exists resp,
    convert pw r s = Res (Ok tt) (HState (globals s) None) [respond resp] /\
    statusCode resp = 400%Z /\
    (resp = html_required \/ resp = dimensions_too_large) /\
    touches_browser (events (convert pw r s)) = false /\
    opened (events (convert pw r s)) = [].
Proof.
  intros H.
  assert (Hd : gt (with_default (VNumber 1280) (req_width r)) 3840
               || gt (with_default (VNumber 720) (req_height r)) 2160
               = true).
  { apply orb_true_iff.
    destruct H as [H|H]; [left|right]; apply gt_with_default, H. }
  destruct (truthy (req_html r)) eqn:Hh.
  - exists dimensions_too_large.
    assert (Hrun : convert pw r s
                   = Res (Ok tt) (HState (globals s) None)
                         [respond dimensions_too_large]).
    { unfold_handler. rewrite Hh, Hd. reflexivity. }
    rewrite Hrun; repeat split; auto.
  - exists html_required.
    assert (Hrun : convert pw r s
                   = Res (Ok tt) (HState (globals s) None)
                         [respond html_required]).
    { unfold_handler. rewrite Hh. reflexivity. }
    rewrite Hrun; repeat split; auto.
Qed.

(** The body [{"html": "<h1>x</h1>", "width": 5000, "height": 600}]. *)
Definition too_wide : request :=
  {| req_html := VString "<h1>x</h1>";
     req_width := VNumber 5000;
     req_height := VNumber 600;
     req_fullPage := VUndefined;
     req_quality := VUndefined;
     req_format := VUndefined;
     req_waitFor := VUndefined;
     req_css := VUndefined;
     req_javascript := VUndefined;
     req_timeout := VUndefined |}.

Lemma convert_rejects_large_witness :
  (gt (req_width too_wide) 3840 = true \/
   gt (req_height too_wide) 2160 = true) /\
  exists resp,
    convert ideal too_wide (HState boot None)
    = Res (Ok tt) (HState boot None) [respond resp] /\
    statusCode resp = 400%Z /\
    (resp = html_required \/ resp = dimensions_too_large) /\
    touches_browser (events (convert ideal too_wide (HState boot None)))
    = false /\
    opened (events (convert ideal too_wide (HState boot None))) = [].
Proof.
  split; [left; reflexivity|].
  apply (convert_rejects_large ideal too_wide (HState boot None)).
  left; reflexivity.
Defined.

(** The [catch] block on its own terms: when the [try] block of the
    handler throws [e], exactly one response is sent and it is the one
    the [catch] block builds from [e]: status 408 if the message contains
    'timeout' in lower case, else 400 if it contains 'net::ERR_', else
    500 (with its own text if it contains 'Protocol error'), and a JSON
    body with a [timestamp]. *)
Lemma convert_error_mapping
  (pw : playwright) (r : request) (s : hstate) (e : error) :
  value (convert_try pw r (HState (globals s) None)) = Throw e ->
  responses (events (convert pw r s)) = [error_response pw e] /\
  statusCode (error_response pw e)
  = (if includes "timeout" (message e) then 408
     else if includes "net::ERR_" (message e) then 400
     else 500)%Z /\
  (includes "timeout" (message e) = false ->
   includes "net::ERR_" (message e) = false ->
   snd (error_status (message e))
   = if includes "Protocol error" (message e)
     then "Browser protocol error"
     else "Internal server error during conversion") /\
  exists o, body (error_response pw e) = json o /\
            property "timestamp" o = Some (VString (toISOString pw)) /\
            property "error" o
            = Some (VString (snd (error_status (message e)))).
Proof.
  intros H.
  split; [|split; [|split]].
  - revert H. run_handler pw; intros H; try discriminate H;
      injection H as <-; reflexivity.
  - rewrite error_response_code. apply error_status_code.
  - intros Ht Hn. unfold error_status. rewrite Ht, Hn.
    destruct (includes "Protocol error" (message e)); reflexivity.
  - apply error_response_timestamp.
Qed.

(** Loading the document fails with a network error. *)
Definition unreachable_resource : playwright :=
  with_method
    (fun _ m => match m with
                | setContent _ _ =>
                    Throw (Error "page.setContent: net::ERR_NAME_NOT_RESOLVED")
                | _ => Ok tt
                end) ideal.

Lemma convert_error_mapping_witness :
  value (convert_try unreachable_resource (only_html "<img src='http://x.invalid/a.png'>")
                     (HState boot None))
  = Throw (Error "page.setContent: net::ERR_NAME_NOT_RESOLVED") /\
  responses (events (convert unreachable_resource
                             (only_html "<img src='http://x.invalid/a.png'>")
                             (HState boot None)))
  = [error_response unreachable_resource
       (Error "page.setContent: net::ERR_NAME_NOT_RESOLVED")] /\
  statusCode (error_response unreachable_resource
                (Error "page.setContent: net::ERR_NAME_NOT_RESOLVED"))
  = 400%Z.
Proof.
  split; [reflexivity|].
  destruct (convert_error_mapping unreachable_resource
              (only_html "<img src='http://x.invalid/a.png'>")
              (HState boot None)
              (Error "page.setContent: net::ERR_NAME_NOT_RESOLVED")
              eq_refl) as (Hr & Hc & _).
  exact (conj Hr Hc).
Defined.

(** The page of the request never shows the element waited for: the
    library rejects [waitForSelector] with its timeout error, whose
    message starts 'page.waitForSelector: Timeout 200ms exceeded.' and
    goes on with a call log. *)
Definition never_appears : playwright :=
  with_method
    (fun _ m => match m with
                | waitForSelector _ _ =>
                    Throw (Error "page.waitForSelector: Timeout 200ms exceeded.")
                | _ => Ok tt
                end) ideal.

(** The body [{"html": "<div id='a'>x</div>",
    "waitFor": "selector:#missing", "timeout": 200}]. *)
Definition missing_selector : request :=
  {| req_html := VString "<div id='a'>x</div>";
     req_width := VUndefined;
     req_height := VUndefined;
     req_fullPage := VUndefined;
     req_quality := VUndefined;
     req_format := VUndefined;
     req_waitFor := VString "selector:#missing";
     req_css := VUndefined;
     req_javascript := VUndefined;
     req_timeout := VNumber 200 |}.

(** C5 (the code departs from it): a failure that is a timeout is not
    answered 408.  The handler waits for [#missing] with a bound of 200
    ms; the library's error for the elapsed bound says 'Timeout', with a
    capital, and the [catch] block looks for 'timeout' in lower case: the
    request is answered 500 'Internal server error during conversion'.
    A message with the lower-case word would have been answered 408. *)
Theorem convert_timeout_answered_500 :
  waits (events (convert never_appears missing_selector (HState boot None)))
  = [waitForSelector "#missing" (Int 200)] /\
  value (convert_try never_appears missing_selector (HState boot None))
  = Throw (Error "page.waitForSelector: Timeout 200ms exceeded.") /\
  includes "Timeout" "page.waitForSelector: Timeout 200ms exceeded." = true /\
  includes "timeout" "page.waitForSelector: Timeout 200ms exceeded." = false /\
  responses (events (convert never_appears missing_selector
                             (HState boot None)))
  = [Response 500 []
       (json [("error", VString "Internal server error during conversion");
              ("timestamp", VString "2024-05-01T12:00:00.000Z")])] /\
  closed (events (convert never_appears missing_selector (HState boot None)))
  = [1] /\
  fst (error_status "page.waitForSelector: timeout 200ms exceeded.") = 408%Z.
Proof. vm_compute; repeat split. Qed.

(** *** [waitFor] *)

(** The resolution of [waitFor] in the words of the specification: a
    string that starts with the marker is a selector, namely what follows
    the marker; otherwise a value that reads as a number is a pause of
    that many milliseconds; otherwise there is no waiting. *)
Definition spec_wait_for (waitFor : jsval) : wait :=
  match waitFor with
  | VString s =>
      if String.prefix "selector:" s then for_selector (drop 9 s)
      else match parseInt waitFor with
           | NaN => no_wait
           | ms => for_timeout ms
           end
  | _ =>
      match parseInt waitFor with
      | NaN => no_wait
      | ms => for_timeout ms
      end
  end.

(** The call the handler makes for a request's [waitFor], if any. *)
Definition planned_wait (r : request) : option method :=
  match wait_for (with_default VNull (req_waitFor r)) with
  | for_selector selector =>
      Some (waitForSelector selector
              (parseInt (with_default (VNumber 30000) (req_timeout r))))
  | for_timeout ms => Some (waitForTimeout ms)
  | no_wait => None
  end.

Definition option_list {A} (x : option A) : list A :=
  match x with
  | Some a => [a]
  | None => []
  end.

Lemma prefix_empty (s : string) : String.prefix "" s = true.
Proof. destruct s; reflexivity. Qed.

Lemma wait_for_prefixed (rest : string) :
  wait_for (VString ("selector:" ++ rest)) = for_selector rest.
Proof.
  unfold wait_for; cbn.
  rewrite prefix_empty; reflexivity.
Qed.

Lemma wait_for_marked (str : string) :
  includes "selector:" str = true ->
  wait_for (VString str) = for_selector (replace "selector:" "" str).
Proof.
  intros H; unfold wait_for.
  destruct str as [|c str]; [discriminate H|].
  cbn [truthy String.eqb negb has_selector ToString].
  rewrite H; reflexivity.
Qed.

Lemma wait_for_number (v : jsval) (n : Z) :
  has_selector v = false -> truthy v = true -> parseInt v = Int n ->
  wait_for v = for_timeout (Int n).
Proof.
  intros Hs Ht Hp; unfold wait_for.
  rewrite Ht, Hs, Hp; cbn.
  rewrite orb_true_r; reflexivity.
Qed.

Lemma wait_for_pause (v : jsval) :
  has_selector v = false -> truthy v = true ->
  is_number v = true \/ parseInt v <> NaN ->
  wait_for v = for_timeout (parseInt v).
Proof.
  intros Hs Ht Hp; unfold wait_for.
  rewrite Ht, Hs.
  destruct Hp as [-> | Hp]; [reflexivity|].
  destruct (parseInt v); [contradiction| |]; cbn;
    rewrite orb_true_r; reflexivity.
Qed.

Lemma wait_for_nothing (v : jsval) :
  has_selector v = false ->
  truthy v = false \/ (is_number v = false /\ parseInt v = NaN) ->
  wait_for v = no_wait.
Proof.
  intros Hs [Ht|[Hn Hp]]; unfold wait_for.
  - rewrite Ht; reflexivity.
  - rewrite Hs, Hn, Hp.
    destruct (truthy v); reflexivity.
Qed.

(** A selector with the marker not at the start. *)
Definition late : request :=
  {| req_html := VString "<div id='a'>x</div>";
     req_width := VUndefined;
     req_height := VUndefined;
     req_fullPage := VUndefined;
     req_quality := VUndefined;
     req_format := VUndefined;
     req_waitFor := VString "div selector:#late";
     req_css := VUndefined;
     req_javascript := VUndefined;
     req_timeout := VUndefined |}.

(** C6 as stated fails: for [waitFor = "div selector:#late"], which does
    not start with the marker and does not read as a number, the stated
    resolution is not to wait, while the handler waits for the selector
    ["div #late"]. *)
Lemma wait_for_marker_inside :
  String.prefix "selector:" "div selector:#late" = false /\
  parseInt (VString "div selector:#late") = NaN /\
  spec_wait_for (VString "div selector:#late") = no_wait /\
  wait_for (VString "div selector:#late") = for_selector "div #late" /\
  wait_for (VString "div selector:#late")
  <> spec_wait_for (VString "div selector:#late") /\
  waits (events (convert ideal late (HState boot None)))
  = [waitForSelector "div #late" (Int 30000)].
Proof. repeat split; try reflexivity; discriminate. Qed.

(** C6 as amended: a falsy [waitFor] (absent, [null], [false], [0],
    the empty string) gives no waiting; a string containing 'selector:'
    anywhere gives [waitForSelector] on the string with the first
    occurrence of the marker removed (what follows the marker when the
    string starts with it), bounded by [parseInt(timeout)]; any other
    truthy value that is a number, or that [parseInt] reads as a number,
    gives [waitForTimeout(parseInt(waitFor))], whose argument is [NaN]
    for a number beyond the range of doubles; anything else gives no
    waiting.  The handler makes no other waiting call, and makes that
    one whenever it gets as far as the screenshot. *)
Theorem convert_wait_resolution (pw : playwright) (r : request) (s : hstate) :
  (forall rest, wait_for (VString ("selector:" ++ rest)) = for_selector rest)
  /\
  (forall str, includes "selector:" str = true ->
               wait_for (VString str)
               = for_selector (replace "selector:" "" str)) /\
  (forall v n, has_selector v = false -> truthy v = true ->
               parseInt v = Int n -> wait_for v = for_timeout (Int n)) /\
  (forall v, has_selector v = false -> truthy v = true ->
             is_number v = true \/ parseInt v <> NaN ->
             wait_for v = for_timeout (parseInt v)) /\
  (forall v, has_selector v = false ->
             truthy v = false \/ (is_number v = false /\ parseInt v = NaN) ->
             wait_for v = no_wait) /\
  (forall m, In m (waits (events (convert pw r s))) ->
             planned_wait r = Some m) /\
  (screenshots (events (convert pw r s)) <> [] ->
   waits (events (convert pw r s)) = option_list (planned_wait r)).
Proof.
  split; [exact wait_for_prefixed|].
  split; [exact wait_for_marked|].
  split; [exact wait_for_number|].
  split; [exact wait_for_pause|].
  split; [exact wait_for_nothing|].
  unfold planned_wait.
  split.
  - run_handler pw; intros m Hm; cbn in Hm;
      repeat (destruct Hm as [Hm|Hm]; [subst m; reflexivity|]);
      contradiction.
  - run_handler pw; intros Hs; try reflexivity; contradiction Hs; reflexivity.
Qed.

Lemma convert_wait_resolution_witness :
  wait_for (VString "selector:#done") = for_selector "#done" /\
  wait_for (VString "250") = for_timeout (Int 250) /\
  wait_for (VNumber (10 ^ 400)) = for_timeout NaN /\
  wait_for (VNumber 0) = no_wait /\
  wait_for (VString "soon") = no_wait /\
  waits (events (convert ideal late (HState boot None)))
  = option_list (planned_wait late).
Proof.
  destruct (convert_wait_resolution ideal late (HState boot None))
    as (H1 & _ & H3 & H4 & H5 & _ & H7).
  split; [exact (H1 "#done")|].
  split; [exact (H3 (VString "250") 250%Z eq_refl eq_refl eq_refl)|].
  split; [exact (H4 (VNumber (10 ^ 400)) eq_refl eq_refl
                    (or_introl eq_refl))|].
  split; [exact (H5 (VNumber 0) eq_refl (or_introl eq_refl))|].
  split; [exact (H5 (VString "soon") eq_refl
                    (or_intror (conj eq_refl eq_refl)))|].
  apply H7; discriminate.
Defined.

(** *** The screenshot and the image response *)

Lemma strict_eq_string_true (v : jsval) (lit : string) :
  strict_eq_string v lit = true <-> v = VString lit.
Proof.
  destruct v; cbn; try (split; [discriminate|intros [=]]).
  rewrite String.eqb_eq; split; [intros ->; reflexivity|intros [= ->]; auto].
Qed.

Lemma fullPage_default (v : jsval) :
  with_default (VBool false) v = VBool true <-> v = VBool true.
Proof. destruct v; cbn; split; auto; discriminate. Qed.

(** C9: in every conversion answered 200 there was exactly one
    screenshot call; its [type] is the request's [format] (default
    'png'), its [fullPage] is the request's [fullPage] (default [false]),
    hence [true] exactly when the request says [true]; its [quality] is
    [parseInt(quality)] when [format] is 'jpeg' and is left undefined for
    every other format, 'png' included; and the body of the response is
    what that call returned. *)
Theorem convert_screenshot_options
  (pw : playwright) (r : request) (s : hstate) (resp : response) :
  In resp (responses (events (convert pw r s))) ->
  statusCode resp = 200%Z ->
  exists o data,
    screenshots (events (convert pw r s)) = [(o, Ok data)] /\
    resp = image_response (with_default (VString "png") (req_format r)) data /\
    type o = with_default (VString "png") (req_format r) /\
    fullPage o = with_default (VBool false) (req_fullPage r) /\
    (fullPage o = VBool true <-> req_fullPage r = VBool true) /\
    (type o = VString "jpeg" ->
     quality o
     = Some (parseInt (with_default (VNumber 100) (req_quality r)))) /\
    (type o <> VString "jpeg" -> quality o = None) /\
    (type o = VString "png" -> quality o = None).
Proof.
  assert (Hopts : forall f p q,
             let o := screenshot_options f p q in
             type o = f /\ fullPage o = p /\
             (type o = VString "jpeg" -> quality o = Some (parseInt q)) /\
             (type o <> VString "jpeg" -> quality o = None) /\
             (type o = VString "png" -> quality o = None)).
  { intros f p q; cbn.
    split; [reflexivity|]; split; [reflexivity|].
    destruct (strict_eq_string f "jpeg") eqn:E.
    - apply strict_eq_string_true in E; subst f.
      split; [reflexivity|]; split; [congruence|discriminate].
    - split; [|split; reflexivity].
      intros Hf; apply strict_eq_string_true in Hf; congruence. }
  intros Hin Hcode; revert Hin.
  run_handler pw; intros Hin; cbn in Hin;
    destruct Hin as [<-|[]];
    try (exfalso; revert Hcode; apply error_response_not_200);
    try discriminate Hcode.
  all: do 2 eexists; split; [reflexivity|]; split; [reflexivity|].
  all: match goal with
       | |- context [screenshot_options ?f ?p ?q] =>
           destruct (Hopts f p q) as (Ht & Hp & Hj & Hn & Hg)
       end.
  all: split; [exact Ht|]; split; [exact Hp|].
  all: split; [rewrite Hp; apply fullPage_default|].
  all: split; [exact Hj|]; split; [exact Hn|exact Hg].
Qed.

(** The body [{"html": "<h1>Test</h1>", "width": 800, "height": 600,
    "fullPage": true, "format": "jpeg", "quality": 80}]. *)
Definition full_jpeg : request :=
  {| req_html := VString "<h1>Test</h1>";
     req_width := VNumber 800;
     req_height := VNumber 600;
     req_fullPage := VBool true;
     req_quality := VNumber 80;
     req_format := VString "jpeg";
     req_waitFor := VUndefined;
     req_css := VUndefined;
     req_javascript := VUndefined;
     req_timeout := VUndefined |}.

Lemma convert_screenshot_options_witness :
  exists o data,
    screenshots (events (convert ideal full_jpeg (HState boot None)))
    = [(o, Ok data)] /\
    type o = VString "jpeg" /\
    fullPage o = VBool true /\
    quality o = Some (Int 80).
Proof.
  destruct (convert_screenshot_options ideal full_jpeg (HState boot None)
              (image_response (VString "jpeg")
                 [Byte.x89; Byte.x50; Byte.x4e; Byte.x47]))
    as (o & data & Hs & _ & Ht & Hp & _ & Hq & _).
  - left; reflexivity.
  - reflexivity.
  - exists o, data.
    split; [exact Hs|]; split; [exact Ht|]; split; [exact Hp|].
    exact (Hq Ht).
Defined.

(** A browser on which no call fails. *)
Definition cooperative (pw : playwright) : Prop :=
  (forall k, exists b, chromium_launch pw k = Ok b) /\
  (forall b, exists p, newPage pw b = Ok p) /\
  (forall p m, page_method pw p m = Ok tt) /\
  (forall p o, exists data, screenshot pw p o = Ok data).

Lemma ideal_cooperative : cooperative ideal.
Proof. repeat split; intros; eauto. Qed.

Lemma invalid_header_status (pw : playwright) :
  statusCode (error_response pw (invalid_header "Content-Type")) = 500%Z.
Proof. rewrite error_response_code, error_status_code; reflexivity. Qed.

(** The options of the screenshot call, and the answer once the call has
    returned [data], for a request whose [format] is the string [f]. *)
Definition capture (r : request) (f : string) : screenshotOptions :=
  screenshot_options (VString f)
    (with_default (VBool false) (req_fullPage r))
    (with_default (VNumber 100) (req_quality r)).

Definition answer (pw : playwright) (f : string) (data : Buffer) : response :=
  if legal_header_value ("image/" ++ f) then image_response (VString f) data
  else error_response pw (invalid_header "Content-Type").

(** C10: no check is made on [format] or [quality].  For a request that
    passes the [html] and dimension checks and whose [format] is the
    string [f], the handler goes on to the browser; every screenshot call
    it makes has [type] [f] and [quality] [parseInt(quality)] if [f] is
    'jpeg', undefined otherwise; every 200 response has
    [Content-Type: image/f] and the outcome of such a call as its body.
    On a browser on which no call fails, whatever [f] and [quality] are,
    the screenshot call is made, once, with [type] [f], and the request
    is answered 200 with [Content-Type: image/f] and the image, unless
    [image/f] cannot be a header value ([res.set] throws on a control
    character or a character beyond U+00FF), in which case the [catch]
    block answers 500 after the screenshot was taken. *)
Theorem convert_format_unchecked
  (pw : playwright) (r : request) (s : hstate) (f : string) :
  truthy (req_html r) = true ->
  gt (with_default (VNumber 1280) (req_width r)) 3840
  || gt (with_default (VNumber 720) (req_height r)) 2160 = false ->
  req_format r = VString f ->
  touches_browser (events (convert pw r s)) = true /\
  (forall o res,
      In (o, res) (screenshots (events (convert pw r s))) ->
      o = capture r f /\
      type o = VString f /\
      quality o
      = if f =? "jpeg"
        then Some (parseInt (with_default (VNumber 100) (req_quality r)))
        else None) /\
  (forall resp,
      In resp (responses (events (convert pw r s))) ->
      statusCode resp = 200%Z ->
      property "Content-Type" (headers resp)
      = Some (VString ("image/" ++ f)) /\
      exists data,
        screenshots (events (convert pw r s)) = [(capture r f, Ok data)] /\
        body resp = send data) /\
  (cooperative pw ->
   exists data,
     screenshots (events (convert pw r s)) = [(capture r f, Ok data)] /\
     type (capture r f) = VString f /\
     responses (events (convert pw r s)) = [answer pw f data] /\
     (legal_header_value ("image/" ++ f) = true ->
      statusCode (answer pw f data) = 200%Z /\
      property "Content-Type" (headers (answer pw f data))
      = Some (VString ("image/" ++ f)) /\
      body (answer pw f data) = send data) /\
     (legal_header_value ("image/" ++ f) = false ->
      statusCode (answer pw f data) = 500%Z)).
Proof.
  intros Hh Hd Hf.
  split; [|split; [|split]].
  - unfold_handler; rewrite Hh, Hd; cbn [negb].
    explore pw; reflexivity.
  - unfold capture.
    unfold_handler; rewrite Hh, Hd, Hf; cbn [negb with_default ToString].
    explore pw; intros o res Hin; cbn in Hin;
      try contradiction; destruct Hin as [[= <- <-]|[]];
      repeat split; reflexivity.
  - unfold capture.
    unfold_handler; rewrite Hh, Hd, Hf; cbn [negb with_default ToString].
    explore pw; intros resp Hin Hcode; cbn in Hin;
      destruct Hin as [<-|[]];
      try (exfalso; revert Hcode; apply error_response_not_200);
      (split; [reflexivity|eexists; split; reflexivity]).
  - intros (Hl & Hn & Hm & Hs).
    unfold capture, answer.
    unfold_handler; rewrite Hh, Hd, Hf; cbn [negb with_default ToString].
    explore pw;
      repeat match goal with
        | H : chromium_launch pw ?k = Throw _ |- _ =>
            destruct (Hl k); congruence
        | H : newPage pw ?b = Throw _ |- _ => destruct (Hn b); congruence
        | H : page_method pw ?p ?m = Throw _ |- _ =>
            rewrite (Hm p m) in H; discriminate H
        | H : screenshot pw ?p ?o = Throw _ |- _ =>
            destruct (Hs p o); congruence
        end.
    all: eexists; split; [reflexivity|]; split; [reflexivity|].
    all: split; [reflexivity|].
    all: split; intros Hv; try discriminate Hv.
    all: first [ apply invalid_header_status | repeat split ].
Qed.

(** The body [{"html": "<p>x</p>", "format": "webp", "quality": 1000}]. *)
Definition odd_format : request :=
  {| req_html := VString "<p>x</p>";
     req_width := VUndefined;
     req_height := VUndefined;
     req_fullPage := VUndefined;
     req_quality := VNumber 1000;
     req_format := VString "webp";
     req_waitFor := VUndefined;
     req_css := VUndefined;
     req_javascript := VUndefined;
     req_timeout := VUndefined |}.

Lemma convert_format_unchecked_witness :
  exists data,
    screenshots (events (convert ideal odd_format (HState boot None)))
    = [(ScreenshotOptions (VString "webp") (VBool false) None, Ok data)] /\
    responses (events (convert ideal odd_format (HState boot None)))
    = [image_response (VString "webp") data] /\
    statusCode (image_response (VString "webp") data) = 200%Z /\
    property "Content-Type" (headers (image_response (VString "webp") data))
    = Some (VString "image/webp").
Proof.
  destruct (convert_format_unchecked ideal odd_format (HState boot None)
              "webp" eq_refl eq_refl eq_refl) as (_ & _ & _ & H).
  destruct (H ideal_cooperative) as (data & Hs & _ & Hr & Hok & _).
  destruct (Hok eq_refl) as (Hc & Ht & _).
  exists data.
  split; [exact Hs|]; split; [exact Hr|]; split; [exact Hc|exact Ht].
Defined.

(** The body [{"html": "<p>x</p>", "format": "png\n"}]: a format that
    ends with a line feed. *)
Definition broken_format : request :=
  {| req_html := VString "<p>x</p>";
     req_width := VUndefined;
     req_height := VUndefined;
     req_fullPage := VUndefined;
     req_quality := VUndefined;
     req_format := VString (String.append "png" (String (ascii_of_nat 10) ""));
     req_waitFor := VUndefined;
     req_css := VUndefined;
     req_javascript := VUndefined;
     req_timeout := VUndefined |}.

Example convert_broken_format :
  screenshots (events (convert ideal broken_format (HState boot None)))
  = [(ScreenshotOptions (req_format broken_format) (VBool false) None,
      Ok [Byte.x89; Byte.x50; Byte.x4e; Byte.x47])] /\
  responses (events (convert ideal broken_format (HState boot None)))
  = [Response 500 []
       (json [("error", VString "Internal server error during conversion");
              ("timestamp", VString "2024-05-01T12:00:00.000Z")])] /\
  closed (events (convert ideal broken_format (HState boot None))) = [1].
Proof. vm_compute; repeat split. Qed.

(** *** The scenarios of the service's documentation *)

Example convert_png_800x600 :
  responses (events (convert ideal
    {| req_html := VString "<h1>Test</h1>";
       req_width := VNumber 800;
       req_height := VNumber 600;
       req_fullPage := VUndefined;
       req_quality := VUndefined;
       req_format := VUndefined;
       req_waitFor := VUndefined;
       req_css := VUndefined;
       req_javascript := VUndefined;
       req_timeout := VUndefined |} (HState boot None)))
  = [image_response (VString "png") [Byte.x89; Byte.x50; Byte.x4e; Byte.x47]]
  /\ opened (events (convert ideal (only_html "<h1>Test</h1>")
                             (HState boot None))) = [1]
  /\ closed (events (convert ideal (only_html "<h1>Test</h1>")
                             (HState boot None))) = [1].
Proof. repeat split. Qed.

(** [>] compares doubles: a width written with more digits than a
    double holds is the limit itself, and the request goes through. *)
Example convert_width_rounds_to_limit :
  gt (VString "3840.0000000000000001") 3840 = false /\
  responses (events (convert ideal
    {| req_html := VString "<h1>Test</h1>";
       req_width := VString "3840.0000000000000001";
       req_height := VNumber 600;
       req_fullPage := VUndefined;
       req_quality := VUndefined;
       req_format := VUndefined;
       req_waitFor := VUndefined;
       req_css := VUndefined;
       req_javascript := VUndefined;
       req_timeout := VUndefined |} (HState boot None)))
  = [image_response (VString "png") [Byte.x89; Byte.x50; Byte.x4e; Byte.x47]].
Proof. vm_compute; repeat split. Qed.

(** The comparison in the [catch] block is case sensitive. *)
Example error_status_is_case_sensitive :
  error_status "page.waitForSelector: timeout 200ms exceeded"
  = (408%Z, "Request timeout - page took too long to load") /\
  error_status "page.waitForSelector: Timeout 200ms exceeded."
  = (500%Z, "Internal server error during conversion").
Proof. split; reflexivity. Qed.

(** * Further properties of the service *)

(** ** One answer per request *)

Lemma error_response_statuses (pw : playwright) (e : error) :
  (statusCode (error_response pw e) = 200 \/
   statusCode (error_response pw e) = 400 \/
   statusCode (error_response pw e) = 408 \/
   statusCode (error_response pw e) = 500)%Z.
Proof.
  rewrite error_response_code, error_status_code.
  destruct (includes "timeout" (message e)); [auto|].
  destruct (includes "net::ERR_" (message e)); auto.
Qed.

(** X1: in every run in which each awaited library call settles, the
    [POST /convert] handler sends exactly one response, whose status is
    200, 400, 408 or 500, and lets no exception out: a rejection of any
    call, that of [close] included, ends in the [catch] block of the
    handler or of the [finally] block.  (A call that never settles leaves
    the handler waiting and the request unanswered; the environment
    [playwright] has no such call.) *)
Theorem convert_answers_once (pw : playwright) (r : request) (s : hstate) :
  value (convert pw r s) = Ok tt /\
  exists resp,
    responses (events (convert pw r s)) = [resp] /\
    (statusCode resp = 200 \/ statusCode resp = 400 \/
     statusCode resp = 408 \/ statusCode resp = 500)%Z.
Proof.
  run_handler pw; (split; [reflexivity|]); eexists; (split; [reflexivity|]);
    first [ apply error_response_statuses
          | left; reflexivity
          | right; left; reflexivity ].
Qed.

(** ** Validation *)

(** Rounding an integer beyond [2^53] gives at least [2^53]. *)
Lemma nearest_even_ge (a b : Z) : (a / b <= nearest_even a b)%Z.
Proof.
  unfold nearest_even.
  destruct ((b <? 2 * (a mod b)) || ((b =? 2 * (a mod b)) && Z.odd (a / b)))%Z;
    lia.
Qed.

Lemma nearest_integer_large (z : Z) :
  (2 ^ 53 < z -> 2 ^ 53 <= nearest_integer z)%Z.
Proof.
  intros Hz; unfold nearest_integer.
  destruct (z <=? 2 ^ 53)%Z eqn:E; [apply Z.leb_le in E; lia|].
  unfold nearest_double, binade.
  change (Z.log2 1) with 0%Z.
  rewrite Z.sub_0_r, Z.mul_1_l.
  assert (Hl : (53 <= Z.log2 z)%Z).
  { change 53%Z with (Z.log2 (2 ^ 53)). apply Z.log2_le_mono; lia. }
  assert (Hp : (2 ^ Z.log2 z <= z)%Z) by (apply Z.log2_spec; lia).
  destruct (0 <=? Z.log2 z)%Z eqn:E0; [|apply Z.leb_gt in E0; lia].
  destruct (2 ^ Z.log2 z <=? z)%Z eqn:E1; [|apply Z.leb_gt in E1; lia].
  rewrite Z.max_l by lia.
  destruct (0 <=? Z.log2 z - 52)%Z eqn:E2; [|apply Z.leb_gt in E2; lia].
  rewrite Z.mul_1_l.
  set (q := (Z.log2 z - 52)%Z) in *.
  assert (Hq : (0 < 2 ^ q)%Z) by (apply Z.pow_pos_nonneg; lia).
  assert (Hm : (2 ^ 52 <= nearest_even z (2 ^ q))%Z).
  { etransitivity; [|apply nearest_even_ge].
    apply Z.div_le_lower_bound; [exact Hq|].
    rewrite Z.mul_comm, <- Z.pow_add_r by lia.
    replace (52 + q)%Z with (Z.log2 z) by (unfold q; lia).
    exact Hp. }
  replace (2 ^ 53)%Z with (2 ^ 52 * 2 ^ 1)%Z by reflexivity.
  apply Z.mul_le_mono_nonneg; try lia.
  apply Z.pow_le_mono_r; lia.
Qed.

(** Against a literal below [2^53] in size, a number of a JSON body
    compares as the integer written. *)
Lemma gt_number (n k : Z) :
  (Z.abs k < 2 ^ 53)%Z -> gt (VNumber n) k = (k <? n)%Z.
Proof.
  intros Hk; unfold gt, ToNumber, double_of_Z, to_integer.
  destruct (Z.abs n <=? 2 ^ 53)%Z eqn:En.
  - apply Z.leb_le in En.
    unfold nearest_integer.
    replace (Z.abs n <=? 2 ^ 53)%Z with true by (symmetry; apply Z.leb_le; lia).
    destruct (2 ^ 1024 <=? Z.abs n)%Z eqn:Eo;
      [apply Z.leb_le in Eo; exfalso;
       assert (2 ^ 53 < 2 ^ 1024)%Z by (apply Z.pow_lt_mono_r; lia); lia|].
    cbn [Z.leb Z.compare].
    rewrite Z.pow_0_r, Z.mul_1_r.
    f_equal; unfold signed.
    destruct (n <? 0)%Z eqn:Es; [apply Z.ltb_lt in Es|apply Z.ltb_ge in Es]; lia.
  - apply Z.leb_gt in En.
    pose proof (nearest_integer_large (Z.abs n) En) as Hx.
    destruct (2 ^ 1024 <=? nearest_integer (Z.abs n))%Z.
    + destruct (n <? 0)%Z eqn:Es; cbn [negb]; symmetry;
        [apply Z.ltb_ge; apply Z.ltb_lt in Es
        |apply Z.ltb_lt; apply Z.ltb_ge in Es]; lia.
    + cbn [Z.leb Z.compare].
      rewrite Z.pow_0_r, Z.mul_1_r.
      unfold signed.
      destruct (n <? 0)%Z eqn:Es;
        [apply Z.ltb_lt in Es|apply Z.ltb_ge in Es].
      * transitivity false; [apply Z.ltb_ge|symmetry; apply Z.ltb_ge]; lia.
      * transitivity true; [apply Z.ltb_lt|symmetry; apply Z.ltb_lt]; lia.
Qed.

(** X2: the dimension limits are inclusive.  For a request with a truthy
    [html] and numeric [width] and [height], the handler goes on to the
    browser exactly when [width <= 3840] and [height <= 2160]; zero and
    negative sizes are not rejected. *)
Theorem convert_dimension_bounds
  (pw : playwright) (r : request) (s : hstate) (w h : Z) :
  truthy (req_html r) = true ->
  req_width r = VNumber w ->
  req_height r = VNumber h ->
  touches_browser (events (convert pw r s))
  = ((w <=? 3840)%Z && (h <=? 2160)%Z).
Proof.
  intros Hh Hw Hht.
  rewrite !Z.leb_antisym.
  unfold_handler; rewrite Hh, Hw, Hht; cbn [negb with_default].
  rewrite !gt_number by (vm_compute; reflexivity).
  destruct (3840 <? w)%Z; [reflexivity|].
  destruct (2160 <? h)%Z; [reflexivity|].
  cbn [orb negb andb].
  explore pw; reflexivity.
Qed.

(** The body [{"html": "<p>x</p>", "width": 3840, "height": 2160}]. *)
Definition largest : request :=
  {| req_html := VString "<p>x</p>";
     req_width := VNumber 3840;
     req_height := VNumber 2160;
     req_fullPage := VUndefined;
     req_quality := VUndefined;
     req_format := VUndefined;
     req_waitFor := VUndefined;
     req_css := VUndefined;
     req_javascript := VUndefined;
     req_timeout := VUndefined |}.

Lemma convert_dimension_bounds_witness :
  touches_browser (events (convert ideal largest (HState boot None))) = true.
Proof.
  exact (convert_dimension_bounds ideal largest (HState boot None)
           3840 2160 eq_refl eq_refl eq_refl).
Defined.

Lemma error_response_not_html_required (pw : playwright) (e : error) :
  error_response pw e <> html_required.
Proof.
  unfold error_response, html_required.
  destruct (error_status (message e)) as [c t].
  destruct (strict_eq_string (NODE_ENV pw) "development"); cbn;
    intros H; discriminate H.
Qed.

(** X3: 'HTML content is required' is the answer exactly when [html] is
    falsy ([undefined], [null], [false], [0] or the empty string); it
    then is the whole run, also when the dimensions are too large, and
    it is never sent for a truthy [html]. *)
Theorem convert_html_required_iff
  (pw : playwright) (r : request) (s : hstate) :
  (truthy (req_html r) = false ->
   convert pw r s
   = Res (Ok tt) (HState (globals s) None) [respond html_required]) /\
  (In html_required (responses (events (convert pw r s)))
   <-> truthy (req_html r) = false).
Proof.
  assert (Hfalsy : truthy (req_html r) = false ->
                   convert pw r s
                   = Res (Ok tt) (HState (globals s) None)
                         [respond html_required]).
  { intros H; unfold_handler; rewrite H; reflexivity. }
  split; [exact Hfalsy|].
  split.
  - destruct (truthy (req_html r)) eqn:Hh; [|reflexivity].
    intros Hin; exfalso; revert Hin.
    unfold_handler; rewrite Hh; cbn [negb].
    explore pw; intros [H|[]]; revert H;
      first [ apply error_response_not_html_required | discriminate ].
  - intros H; rewrite (Hfalsy H); left; reflexivity.
Qed.

(** ** The calls made on the page *)

(** The methods called on pages, [close] apart, in order; those that
    resolved and those that threw. *)
Fixpoint called (evs : list event) : list method :=
  match evs with
  | [] => []
  | page_call _ close _ :: evs' => called evs'
  | page_call _ m _ :: evs' => m :: called evs'
  | _ :: evs' => called evs'
  end.

Fixpoint succeeded (evs : list event) : list method :=
  match evs with
  | [] => []
  | page_call _ close _ :: evs' => succeeded evs'
  | page_call _ m (Ok _) :: evs' => m :: succeeded evs'
  | _ :: evs' => succeeded evs'
  end.

Fixpoint failed (evs : list event) : list method :=
  match evs with
  | [] => []
  | page_call _ close _ :: evs' => failed evs'
  | page_call _ m (Throw _) :: evs' => m :: failed evs'
  | _ :: evs' => failed evs'
  end.

(** The pages on which a method or a screenshot was called. *)
Fixpoint pages_used (evs : list event) : list Page :=
  match evs with
  | [] => []
  | page_call p _ _ :: evs' => p :: pages_used evs'
  | page_screenshot p _ _ :: evs' => p :: pages_used evs'
  | _ :: evs' => pages_used evs'
  end.

(** The calls a request asks for, in the order of the handler. *)
Definition plan (r : request) : list method :=
  let html := req_html r in
  let width := with_default (VNumber 1280) (req_width r) in
  let height := with_default (VNumber 720) (req_height r) in
  let css := with_default (VString "") (req_css r) in
  let javascript := with_default (VString "") (req_javascript r) in
  let timeout := with_default (VNumber 30000) (req_timeout r) in
  setViewportSize (parseInt width) (parseInt height)
  :: (if truthy css then [addStyleTag css] else [])
  ++ setContent html (parseInt timeout)
  :: (if truthy javascript then [evaluate javascript] else [])
  ++ option_list (planned_wait r).

(** X4: the handler calls the page in a fixed order: the viewport (from
    [parseInt] of [width] and [height], 1280x720 by default), the style
    tag if [css] is truthy, the document with [parseInt(timeout)], the
    script if [javascript] is truthy, then the wait.  It stops at the
    first call that throws: the calls made are a prefix of that list, all
    but possibly the last resolved, and a screenshot is only taken after
    all of them resolved. *)
Theorem convert_call_order (pw : playwright) (r : request) (s : hstate) :
  called (events (convert pw r s)) `prefix_of` plan r /\
  called (events (convert pw r s))
  = succeeded (events (convert pw r s)) ++ failed (events (convert pw r s)) /\
  length (failed (events (convert pw r s))) <= 1 /\
  (screenshots (events (convert pw r s)) <> [] ->
   called (events (convert pw r s)) = plan r /\
   failed (events (convert pw r s)) = []).
Proof.
  unfold plan, planned_wait.
  run_handler pw;
    (split; [eexists; reflexivity|]);
    (split; [reflexivity|]);
    (split; [cbn; lia|]);
    intros H;
    first [ exfalso; apply H; reflexivity | split; reflexivity ].
Qed.

(** X5: a request uses only the page it opened: it opens at most one
    page, takes at most one screenshot, and every method and screenshot
    call is made on that page. *)
Theorem convert_page_isolation (pw : playwright) (r : request) (s : hstate) :
  length (opened (events (convert pw r s))) <= 1 /\
  length (screenshots (events (convert pw r s))) <= 1 /\
  Forall (fun p => opened (events (convert pw r s)) = [p])
         (pages_used (events (convert pw r s))).
Proof.
  run_handler pw;
    (split; [cbn; lia|]); (split; [cbn; lia|]); repeat constructor.
Qed.

(** ** Error answers *)

Lemma error_response_details (pw : playwright) (e : error)
      (o : list (string * jsval)) :
  body (error_response pw e) = json o ->
  property "details" o
  = if strict_eq_string (NODE_ENV pw) "development"
    then Some (VString (message e)) else None.
Proof.
  unfold error_response.
  destruct (error_status (message e)) as [c t].
  destruct (strict_eq_string (NODE_ENV pw) "development"); cbn;
    intros [= <-]; reflexivity.
Qed.

(** X6: the text of the underlying error reaches the client only in
    development.  When [NODE_ENV] is not 'development' no JSON response
    of the handler has a [details] property; when it is, the answer to a
    failed conversion carries the error's message as [details]. *)
Theorem convert_details_only_in_development
  (pw : playwright) (r : request) (s : hstate) :
  (strict_eq_string (NODE_ENV pw) "development" = false ->
   forall resp o,
     In resp (responses (events (convert pw r s))) ->
     body resp = json o ->
     property "details" o = None) /\
  (strict_eq_string (NODE_ENV pw) "development" = true ->
   forall e,
     value (convert_try pw r (HState (globals s) None)) = Throw e ->
     exists resp o,
       responses (events (convert pw r s)) = [resp] /\
       body resp = json o /\
       property "details" o = Some (VString (message e))).
Proof.
  split; intros Hdev.
  - run_handler pw; intros resp o [<-|[]] Hb;
      first [ rewrite (error_response_details _ _ _ Hb), Hdev; reflexivity
            | discriminate Hb
            | injection Hb as <-; reflexivity ].
  - intros e He; revert He.
    run_handler pw; intros He; try discriminate He; injection He as ->;
      destruct (error_response_timestamp pw e) as (o & Hb & _);
      exists (error_response pw e), o;
      (split; [reflexivity|]); (split; [exact Hb|]);
      rewrite (error_response_details _ _ _ Hb), Hdev; reflexivity.
Qed.

(** A development server on which loading the document times out. *)
Definition slow_development : playwright :=
  {| chromium_launch := fun k => Ok k;
     isConnected := fun _ => true;
     newPage := fun _ => Ok 1;
     page_method := fun _ m =>
       match m with
       | setContent _ _ => Throw (Error "page.setContent: timeout exceeded")
       | _ => Ok tt
       end;
     screenshot := fun _ _ => Ok [];
     toISOString := "2024-05-01T12:00:00.000Z";
     NODE_ENV := VString "development" |}.

Lemma convert_details_only_in_development_witness :
  (forall resp o,
     In resp (responses (events (convert unreachable_resource
                                         (only_html "<p>x</p>")
                                         (HState boot None)))) ->
     body resp = json o ->
     property "details" o = None) /\
  exists resp o,
    responses (events (convert slow_development (only_html "<p>x</p>")
                               (HState boot None))) = [resp] /\
    body resp = json o /\
    property "details" o
    = Some (VString "page.setContent: timeout exceeded").
Proof.
  split.
  - exact (proj1 (convert_details_only_in_development unreachable_resource
                    (only_html "<p>x</p>") (HState boot None)) eq_refl).
  - exact (proj2 (convert_details_only_in_development slow_development
                    (only_html "<p>x</p>") (HState boot None)) eq_refl
                 (Error "page.setContent: timeout exceeded") eq_refl).
Defined.

(** X7: when no browser is held and the launch fails, a request that
    passed validation is answered from the launch error by the [catch]
    block; no page is opened, nothing is called on a page, and [browser]
    is still unset afterwards, so that the next request launches again. *)
Theorem convert_launch_failure
  (pw : playwright) (r : request) (s : hstate) (e : error) :
  truthy (req_html r) = true ->
  gt (with_default (VNumber 1280) (req_width r)) 3840
  || gt (with_default (VNumber 720) (req_height r)) 2160 = false ->
  browser (globals s) = None ->
  chromium_launch pw (launches (globals s)) = Throw e ->
  events (convert pw r s)
  = [console_log "Launching browser...";
     launch (launches (globals s));
     console_error "Failed to launch browser:" e;
     console_error "Conversion error:" e;
     respond (error_response pw e)] /\
  final (convert pw r s)
  = HState (World None (S (launches (globals s))) (processes (globals s)))
           None.
Proof.
  intros Hh Hd Hb He.
  unfold_handler; rewrite Hh, Hd; cbn [negb].
  simpl_handler.
  rewrite initBrowser_cases, Hb, He.
  split; reflexivity.
Qed.

Definition never_starts : playwright :=
  with_launch (fun _ => Throw (Error "Failed to launch chromium")) ideal.

Lemma convert_launch_failure_witness :
  events (convert never_starts (only_html "<p>x</p>") (HState boot None))
  = [console_log "Launching browser...";
     launch 0;
     console_error "Failed to launch browser:"
                   (Error "Failed to launch chromium");
     console_error "Conversion error:" (Error "Failed to launch chromium");
     respond (error_response never_starts
                (Error "Failed to launch chromium"))] /\
  final (convert never_starts (only_html "<p>x</p>") (HState boot None))
  = HState (World None 1 []) None.
Proof.
  exact (convert_launch_failure never_starts (only_html "<p>x</p>")
           (HState boot None) (Error "Failed to launch chromium")
           eq_refl eq_refl eq_refl eq_refl).
Defined.

(** ** Requests served one after another *)

(** [initBrowser().catch(error => console.error(...))], the last
    statement of the file. *)
Definition startup (pw : playwright) : M world unit :=
  try_catch
    (initBrowser pw;; ret tt)
    (fun error =>
       emit (console_error "Failed to initialize browser on startup:" error)).

(** A request to one of the two routes that use the browser. *)
Inductive incoming : Type :=
| GET_health
| POST_convert (body : request).

(** The process state after a request has been handled to its end. *)
Definition serve (pw : playwright) (w : world) (q : incoming) : world :=
  match q with
  | GET_health => final (health pw w)
  | POST_convert body => globals (final (convert pw body (HState w None)))
  end.

(** Requests handled one after another, none overlapping another. *)
Definition serve_all (pw : playwright) (qs : list incoming) (w : world)
  : world :=
  fold_left (serve pw) qs w.

(** The server once it has started. *)
Definition started (pw : playwright) : world := final (startup pw boot).

Lemma startup_world (pw : playwright) (w : world) :
  value (startup pw w) = Ok tt /\
  final (startup pw w) = final (initBrowser pw w).
Proof.
  unfold startup, try_catch, mbind, M_bind, bind, ret, emit.
  destruct (initBrowser pw w) as [[b|e] w' evs]; split; reflexivity.
Qed.

Lemma health_world (pw : playwright) (w : world) :
  final (health pw w) = final (initBrowser pw w).
Proof.
  unfold health, try_catch, mbind, M_bind, bind, emit.
  destruct (initBrowser pw w) as [[b|e] w' evs]; reflexivity.
Qed.

Lemma convert_world (pw : playwright) (r : request) (s : hstate) :
  globals (final (convert pw r s)) = globals s \/
  globals (final (convert pw r s)) = final (initBrowser pw (globals s)).
Proof.
  run_handler pw; first [left; reflexivity | right; reflexivity].
Qed.

Lemma serve_world (pw : playwright) (w : world) (q : incoming) :
  serve pw w q = w \/ serve pw w q = final (initBrowser pw w).
Proof.
  destruct q as [|body]; cbn.
  - right; apply health_world.
  - apply (convert_world pw body (HState w None)).
Qed.

Lemma initBrowser_held (pw : playwright) (w : world) (b : Browser) :
  browser w = Some b -> final (initBrowser pw w) = w.
Proof. intros H; rewrite initBrowser_cases, H; reflexivity. Qed.

Lemma single_length (w : world) : single w -> length (processes w) <= 1.
Proof.
  unfold single; destruct (browser w); intros ->; cbn; lia.
Qed.

Lemma serve_all_single (pw : playwright) (qs : list incoming) (w : world) :
  single w -> single (serve_all pw qs w).
Proof.
  unfold serve_all; revert w.
  induction qs as [|q qs IH]; intros w Hw; cbn; [exact Hw|].
  apply IH.
  destruct (serve_world pw w q) as [-> | ->];
    [exact Hw | apply initBrowser_single, Hw].
Qed.

Lemma started_single (pw : playwright) : single (started pw).
Proof.
  unfold started; rewrite (proj2 (startup_world pw boot)).
  apply initBrowser_single, boot_single.
Qed.

(** X8: as long as requests do not overlap, the server never has more
    than one browser process: after start-up and any sequence of health
    and conversion requests the processes started are exactly the one
    held in [browser], or none. *)
Theorem sequential_single_process (pw : playwright) (qs : list incoming) :
  single (serve_all pw qs (started pw)) /\
  length (processes (serve_all pw qs (started pw))) <= 1.
Proof.
  assert (H : single (serve_all pw qs (started pw)))
    by apply serve_all_single, started_single.
  split; [exact H | apply single_length, H].
Qed.

(** X9: once a browser is held it is reused: any sequence of health and
    conversion requests that do not overlap leaves the process state as
    it was: the same handle, no further launch, no further process. *)
Theorem sequential_reuse
  (pw : playwright) (qs : list incoming) (w : world) (b : Browser) :
  browser w = Some b -> serve_all pw qs w = w.
Proof.
  intros Hb; unfold serve_all.
  induction qs as [|q qs IH]; cbn; [reflexivity|].
  destruct (serve_world pw w q) as [-> | ->]; [exact IH|].
  rewrite (initBrowser_held pw w b Hb); exact IH.
Qed.

Lemma sequential_reuse_witness :
  serve_all flaky [GET_health; POST_convert too_wide;
                   POST_convert (only_html "<p>x</p>"); GET_health]
            (World (Some 4) 1 [4])
  = World (Some 4) 1 [4].
Proof.
  exact (sequential_reuse flaky _ (World (Some 4) 1 [4]) 4 eq_refl).
Defined.

(** ** Shutdown *)

(** How a signal handler ends: [process.exit(code)], or the rejection of
    the handler's promise when [browser.close()] throws. *)
Inductive termination : Type :=
| exit (code : Z)
| rejection (e : error).

Record stopped : Type := Stopped {
  said : list string;
  closed_browsers : list Browser;
  ending : termination
}.

(** The handlers of [SIGINT] and [SIGTERM]; [browser_close] is how
    [browser.close()] ends. *)
Definition on_signal (name : string) (browser_close : Browser -> outcome unit)
           (w : world) : stopped :=
  let line :=
    ("Received " ++ name ++ ", shutting down gracefully...")%string in
  match browser w with
  | Some b =>
      match browser_close b with
      | Ok _ => Stopped [line] [b] (exit 0)
      | Throw e => Stopped [line] [b] (rejection e)
      end
  | None => Stopped [line] [] (exit 0)
  end.

Definition SIGTERM := on_signal "SIGTERM".

(** X10: after any sequence of requests that did not overlap, a signal
    closes every browser process the server started and, when closing
    succeeds, exits with code 0. *)
Theorem shutdown_closes_every_process
  (pw : playwright) (qs : list incoming) (name : string)
  (browser_close : Browser -> outcome unit) :
  (forall b, browser_close b = Ok tt) ->
  closed_browsers (on_signal name browser_close
                             (serve_all pw qs (started pw)))
  = processes (serve_all pw qs (started pw)) /\
  ending (on_signal name browser_close (serve_all pw qs (started pw)))
  = exit 0.
Proof.
  intros Hclose.
  pose proof (serve_all_single pw qs _ (started_single pw)) as Hs.
  revert Hs; generalize (serve_all pw qs (started pw)); intros w.
  unfold single, on_signal.
  destruct (browser w) as [b|]; intros ->;
    [rewrite Hclose|]; split; reflexivity.
Qed.

Lemma shutdown_closes_every_process_witness :
  closed_browsers (SIGTERM (fun _ => Ok tt)
                     (serve_all ideal [POST_convert (only_html "<p>x</p>")]
                                (started ideal)))
  = [0] /\
  ending (SIGTERM (fun _ => Ok tt)
            (serve_all ideal [POST_convert (only_html "<p>x</p>")]
                       (started ideal)))
  = exit 0.
Proof.
  exact (shutdown_closes_every_process ideal
           [POST_convert (only_html "<p>x</p>")] "SIGTERM"
           (fun _ => Ok tt) (fun _ => eq_refl)).
Defined.



(** ** Start-up *)

(** X15: a launch that fails at start-up does not stop the server: the
    start-up call completes after logging the error, [browser] stays
    unset, and the first conversion request that passes validation
    launches again; if that launch succeeds its browser is the one held
    from then on. *)
Theorem startup_failure_recovers
  (pw : playwright) (r : request) (e : error) :
  chromium_launch pw 0 = Throw e ->
  truthy (req_html r) = true ->
  gt (with_default (VNumber 1280) (req_width r)) 3840
  || gt (with_default (VNumber 720) (req_height r)) 2160 = false ->
  startup pw boot
  = Res (Ok tt) (World None 1 [])
        [console_log "Launching browser..."; launch 0;
         console_error "Failed to launch browser:" e;
         console_error "Failed to initialize browser on startup:" e] /\
  In (launch 1) (events (convert pw r (HState (started pw) None))) /\
  forall b, chromium_launch pw 1 = Ok b ->
            globals (final (convert pw r (HState (started pw) None)))
            = World (Some b) 2 [b].
Proof.
  intros He Hh Hd.
  assert (Hs : startup pw boot
               = Res (Ok tt) (World None 1 [])
                     [console_log "Launching browser..."; launch 0;
                      console_error "Failed to launch browser:" e;
                      console_error "Failed to initialize browser on startup:"
                                    e]).
  { unfold startup, try_catch, mbind, M_bind, bind, ret, emit.
    rewrite initBrowser_cases; cbn; rewrite He; reflexivity. }
  split; [exact Hs|].
  unfold started; rewrite Hs; cbn [final].
  unfold_handler; rewrite Hh, Hd; cbn [negb]; simpl_handler.
  rewrite initBrowser_cases; cbn [browser launches processes].
  destruct (chromium_launch pw 1) as [b|e1] eqn:H1.
  - explore pw; (split; [right; left; reflexivity|]);
      intros b' [= <-]; reflexivity.
  - explore pw; (split; [right; left; reflexivity|]); intros b' [=].
Qed.

Lemma startup_failure_recovers_witness :
  startup flaky boot
  = Res (Ok tt) (World None 1 [])
        [console_log "Launching browser..."; launch 0;
         console_error "Failed to launch browser:"
                       (Error "Failed to launch chromium");
         console_error "Failed to initialize browser on startup:"
                       (Error "Failed to launch chromium")] /\
  globals (final (convert flaky (only_html "<p>x</p>")
                          (HState (started flaky) None)))
  = World (Some 1) 2 [1].
Proof.
  destruct (startup_failure_recovers flaky (only_html "<p>x</p>")
              (Error "Failed to launch chromium") eq_refl eq_refl eq_refl)
    as (Hs & _ & Hb).
  exact (conj Hs (Hb 1 eq_refl)).
Defined.

(** ** The shape of the answers *)

Lemma error_response_error (pw : playwright) (e : error) :
  exists o msg, body (error_response pw e) = json o /\
                property "error" o = Some (VString msg).
Proof.
  destruct (error_response_timestamp pw e) as (o & Hb & _ & He).
  eauto.
Qed.

(** X16: every answer sent by the [POST /convert] handler is either a
    200 whose body is the raw image, or a non-200 JSON object with a
    string [error] property; every answer sent by the [GET /health]
    handler is a JSON object with [status] and [timestamp], with status
    code 200 when [initBrowser] returned and 500, with the message of the
    error as [error], when [initBrowser] threw.  (The answers of the
    middleware in front of the handlers, such as the rate limiter's, are
    not the handlers'.) *)
Theorem answers_shape
  (pw : playwright) (r : request) (s : hstate) (w : world) :
  (forall resp,
      In resp (responses (events (convert pw r s))) ->
      (statusCode resp = 200%Z /\ exists data, body resp = send data) \/
      (statusCode resp <> 200%Z /\
       exists o msg, body resp = json o /\
                     property "error" o = Some (VString msg))) /\
  (forall resp,
      In resp (responses (events (health pw w))) ->
      (exists o st, body resp = json o /\
                    property "status" o = Some (VString st) /\
                    property "timestamp" o
                    = Some (VString (toISOString pw))) /\
      (forall b, value (initBrowser pw w) = Ok b ->
                 statusCode resp = 200%Z) /\
      (forall e, value (initBrowser pw w) = Throw e ->
                 statusCode resp = 500%Z /\
                 exists o, body resp = json o /\
                           property "error" o = Some (VString (message e)))).
Proof.
  split.
  - run_handler pw; intros resp [<-|[]];
      first [ left; split; [reflexivity|eexists; reflexivity]
            | right; split;
              [apply error_response_not_200|apply error_response_error]
            | right; split; [discriminate|do 2 eexists; split; reflexivity] ].
  - unfold health, try_catch, mbind, M_bind, bind, emit.
    rewrite initBrowser_cases.
    destruct (browser w) as [b|];
      [|destruct (chromium_launch pw (launches w)) as [b|e]];
      cbn; intros resp [<-|[]]; cbn;
      (split; [do 2 eexists; repeat split; reflexivity|]);
      (split; [intros b' Hb'; first [reflexivity|discriminate Hb']|]);
      intros e' He'; try discriminate He';
      injection He' as <-; split; [reflexivity|];
      eexists; split; reflexivity.
Qed.

(** ** Invariants of interleaved calls of [initBrowser] *)

(** Callers suspended at [await chromium.launch]. *)
Definition awaiting (t : call_state) : nat :=
  match t with
  | AwaitLaunch _ => 1
  | _ => 0
  end.

Fixpoint suspended (ts : list call_state) : nat :=
  match ts with
  | [] => 0
  | t :: ts' => awaiting t + suspended ts'
  end.

Lemma suspended_repeat (n : nat) : suspended (repeat Entry n) = 0.
Proof. induction n as [|n IH]; cbn; auto. Qed.

Lemma suspended_insert (ts : list call_state) (i : nat) (t t' : call_state) :
  ts !! i = Some t ->
  suspended (<[i := t']> ts) + awaiting t = suspended ts + awaiting t'.
Proof.
  revert i; induction ts as [|u ts IH]; intros [|i] H; simpl in *;
    try discriminate.
  - injection H as ->; lia.
  - specialize (IH i H); lia.
Qed.

(** What holds of the callers and the process state at every moment. *)
Record coherent (c : system) : Prop := Coherent {
  started_bound :
    length (processes (shared c)) + suspended (calls c)
    <= launches (shared c);
  held_started :
    forall b, browser (shared c) = Some b -> In b (processes (shared c));
  returned_started :
    forall i ob, calls c !! i = Some (Returned ob) ->
                 exists b, ob = Some b /\ In b (processes (shared c))
}.

Lemma coherent_initially (n : nat) : coherent (concurrent_calls n).
Proof.
  split; cbn.
  - rewrite suspended_repeat; lia.
  - discriminate.
  - intros i ob H.
    apply list_elem_of_lookup_2, list_elem_of_In, repeat_spec in H.
    discriminate H.
Qed.

Lemma coherent_schedule (pw : playwright) (c : system) (i : nat) :
  coherent c -> coherent (schedule pw c i).
Proof.
  intros [Hb Hh Hr]; unfold schedule.
  destruct (calls c !! i) as [t|] eqn:Hi; [|split; assumption].
  destruct t as [|k|ob|e]; cbn.
  - (* the caller tests [browser] *)
    destruct (browser (shared c)) as [b|] eqn:Hheld; cbn.
    + split; cbn.
      * pose proof (suspended_insert _ _ _ (Returned (Some b)) Hi).
        cbn in *; lia.
      * intros b' Hb'; apply Hh; congruence.
      * intros j ob Hj.
        apply list_lookup_insert_Some in Hj
          as [(_ & [= <-] & _) | (_ & Hj)]; [eauto|eapply Hr, Hj].
    + split; cbn.
      * pose proof (suspended_insert _ _ _ (AwaitLaunch (launches (shared c)))
                                     Hi).
        cbn in *; lia.
      * discriminate.
      * intros j ob Hj.
        apply list_lookup_insert_Some in Hj
          as [(_ & [=] & _) | (_ & Hj)]; eapply Hr, Hj.
  - (* the launch settles *)
    destruct (chromium_launch pw k) as [b|e]; cbn.
    + split; cbn.
      * pose proof (suspended_insert _ _ _ (Returned (Some b)) Hi).
        rewrite length_app; cbn in *; lia.
      * intros b' [= <-]; apply in_or_app; right; left; reflexivity.
      * intros j ob Hj.
        apply list_lookup_insert_Some in Hj
          as [(_ & [= <-] & _) | (_ & Hj)].
        -- exists b; split; [reflexivity|].
           apply in_or_app; right; left; reflexivity.
        -- destruct (Hr j ob Hj) as (b' & -> & Hin).
           exists b'; split; [reflexivity|apply in_or_app; left; exact Hin].
    + split; cbn.
      * pose proof (suspended_insert _ _ _ (Thrown e) Hi).
        cbn in *; lia.
      * exact Hh.
      * intros j ob Hj.
        apply list_lookup_insert_Some in Hj
          as [(_ & [=] & _) | (_ & Hj)]; eapply Hr, Hj.
  - (* the caller has returned *)
    rewrite list_insert_id by exact Hi.
    rewrite app_nil_r; destruct c; split; assumption.
  - rewrite list_insert_id by exact Hi.
    rewrite app_nil_r; destruct c; split; assumption.
Qed.

Lemma coherent_run (pw : playwright) (order : list nat) (c : system) :
  coherent c -> coherent (run pw order c).
Proof.
  unfold run; revert c.
  induction order as [|i order IH]; intros c Hc; cbn; [exact Hc|].
  apply IH, coherent_schedule, Hc.
Qed.

(** X12: however the calls of [initBrowser] are interleaved, [n] callers
    make at most [n] launches; no more processes are started than
    launches made; the handle in [browser] and every handle returned to
    a caller is a process that was started; and no caller is handed
    [null]. *)
Theorem interleaved_calls_coherent
  (pw : playwright) (n : nat) (order : list nat) :
  launches (shared (run pw order (concurrent_calls n))) <= n /\
  length (processes (shared (run pw order (concurrent_calls n))))
  <= launches (shared (run pw order (concurrent_calls n))) /\
  (forall b, browser (shared (run pw order (concurrent_calls n))) = Some b ->
             In b (processes (shared (run pw order (concurrent_calls n))))) /\
  (forall i ob,
      calls (run pw order (concurrent_calls n)) !! i = Some (Returned ob) ->
      exists b, ob = Some b /\
                In b (processes (shared (run pw order (concurrent_calls n))))).
Proof.
  destruct (coherent_run pw order _ (coherent_initially n)) as [Hb Hh Hr].
  split; [apply launches_at_most_callers|].
  split; [lia|].
  split; assumption.
Qed.

(** ** The selector taken from [waitFor] *)

Lemma prefix_cons (a b : ascii) (s1 s2 : string) :
  String.prefix (String a s1) (String b s2)
  = if ascii_dec a b then String.prefix s1 s2 else false.
Proof. reflexivity. Qed.

(** The next character of [x] read against the marker. *)
Ltac next_char x H :=
  destruct x as [|? x];
  [vm_compute in H; discriminate H|];
  cbn [append] in H; rewrite prefix_cons in H;
  match type of H with
  | context [ascii_dec ?a ?c] =>
      destruct (ascii_dec a c) as [<-|]; [|discriminate H]
  end.

(** The marker cannot begin inside [x] and end inside a following copy
    of itself. *)
Lemma marker_aligned (x post : string) :
  String.prefix "selector:" (x ++ "selector:" ++ post) = true ->
  x = "" \/ String.prefix "selector:" x = true.
Proof.
  intros H.
  destruct x as [|c1 x]; [left; reflexivity|right].
  cbn [append] in H; rewrite prefix_cons in H.
  destruct (ascii_dec "s" c1) as [<-|]; [|discriminate H].
  do 8 next_char x H.
  rewrite !prefix_cons; cbn; apply prefix_empty.
Qed.

Lemma append_cons (c : ascii) (s t : string) :
  (String c s ++ t)%string = String c (s ++ t).
Proof. reflexivity. Qed.

Lemma includes_cons (needle : string) (c : ascii) (s : string) :
  includes needle (String c s)
  = String.prefix needle (String c s) || includes needle s.
Proof. reflexivity. Qed.

Lemma replace_cons (needle repl : string) (c : ascii) (s : string) :
  String.prefix needle (String c s) = false ->
  replace needle repl (String c s) = String c (replace needle repl s).
Proof. intros H; cbn [replace]; rewrite H; reflexivity. Qed.

Lemma includes_marker (pre post : string) :
  includes "selector:" (pre ++ "selector:" ++ post) = true.
Proof.
  induction pre as [|c pre IH].
  - cbn. rewrite prefix_empty; reflexivity.
  - rewrite append_cons, includes_cons, IH; apply orb_true_r.
Qed.

Lemma replace_first_marker (pre post : string) :
  includes "selector:" pre = false ->
  replace "selector:" "" (pre ++ "selector:" ++ post) = (pre ++ post)%string.
Proof.
  induction pre as [|c pre IH]; intros H.
  - cbn. rewrite prefix_empty; reflexivity.
  - rewrite includes_cons in H.
    apply orb_false_iff in H as [Hp Hi].
    rewrite append_cons, replace_cons.
    + rewrite (IH Hi); reflexivity.
    + destruct (String.prefix "selector:"
                  (String c (pre ++ "selector:" ++ post))) eqn:E;
        [|reflexivity].
      rewrite <- append_cons in E.
      destruct (marker_aligned (String c pre) post E) as [H|H];
        [discriminate H|congruence].
Qed.

(** X13: when [waitFor] is a string in which the marker 'selector:'
    first occurs after some text [pre], the selector waited for is [pre]
    followed by what comes after that first marker: the text before the
    marker is kept and later markers are not removed. *)
Theorem wait_for_selector_parts (pre post : string) :
  includes "selector:" pre = false ->
  wait_for (VString (pre ++ "selector:" ++ post)) = for_selector (pre ++ post).
Proof.
  intros H.
  rewrite wait_for_marked by apply includes_marker.
  rewrite (replace_first_marker pre post H); reflexivity.
Qed.

Lemma wait_for_selector_parts_witness :
  wait_for (VString "main selector:.a selector:.b")
  = for_selector "main .a selector:.b".
Proof.
  exact (wait_for_selector_parts "main " ".a selector:.b" eq_refl).
Defined.

(** ** Allowed origins *)

(** [s.split(sep)] for a one-character separator. *)
Fixpoint split (sep : ascii) (s : string) : list string :=
  match s with
  | EmptyString => [EmptyString]
  | String c s' =>
      if Ascii.eqb c sep then EmptyString :: split sep s'
      else match split sep s' with
           | piece :: pieces => String c piece :: pieces
           | [] => [String c EmptyString]
           end
  end.

(** The [origin] option given to the CORS middleware. *)
Inductive origin : Type :=
| any_origin
| origins (allowed : list string).

(** [process.env.ALLOWED_ORIGINS ? process.env.ALLOWED_ORIGINS.split(',')
    : '*'], for an environment variable that is unset or a string. *)
Definition cors_origin (ALLOWED_ORIGINS : option string) : origin :=
  match ALLOWED_ORIGINS with
  | Some s => if s =? "" then any_origin else origins (split "," s)
  | None => any_origin
  end.

Fixpoint count_char (c : ascii) (s : string) : nat :=
  match s with
  | EmptyString => 0
  | String c' s' => (if Ascii.eqb c' c then 1 else 0) + count_char c s'
  end.

Lemma split_not_nil (sep : ascii) (s : string) : split sep s <> [].
Proof.
  destruct s as [|c s]; cbn; [discriminate|].
  destruct (Ascii.eqb c sep); [discriminate|].
  destruct (split sep s); discriminate.
Qed.

Lemma concat_split (sep : ascii) (s : string) :
  String.concat (String sep "") (split sep s) = s.
Proof.
  induction s as [|c s IH]; [reflexivity|].
  cbn [split].
  destruct (Ascii.eqb_spec c sep) as [->|Hne].
  - pose proof (split_not_nil sep s) as Hnil.
    destruct (split sep s) as [|p ps] eqn:E; [contradiction|].
    cbn [String.concat]; cbn [String.concat] in IH.
    rewrite IH; reflexivity.
  - destruct (split sep s) as [|p ps] eqn:E.
    + exfalso; exact (split_not_nil sep s E).
    + destruct ps as [|q qs]; cbn in *; rewrite <- IH; reflexivity.
Qed.

Lemma length_split (sep : ascii) (s : string) :
  length (split sep s) = S (count_char sep s).
Proof.
  induction s as [|c s IH]; [reflexivity|].
  cbn [split count_char].
  destruct (Ascii.eqb c sep); cbn; [rewrite IH; reflexivity|].
  destruct (split sep s); cbn in *; lia.
Qed.

Lemma split_pieces (sep : ascii) (s : string) :
  Forall (fun piece => count_char sep piece = 0) (split sep s).
Proof.
  induction s as [|c s IH]; [repeat constructor|].
  cbn [split].
  destruct (Ascii.eqb c sep) eqn:E; [constructor; [reflexivity|exact IH]|].
  destruct (split sep s) as [|p ps]; [repeat constructor; cbn; rewrite E; reflexivity|].
  inversion IH as [|? ? Hp Hps]; subst.
  constructor; [cbn; rewrite E; exact Hp|exact Hps].
Qed.

(** X14: the allowed origins are the pieces of [ALLOWED_ORIGINS] between
    its commas: joined with commas they give the variable back, there is
    one more piece than there are commas, and no piece contains a comma.
    Every origin is allowed exactly when the variable is unset or empty. *)
Theorem cors_origin_pieces (ALLOWED_ORIGINS : option string) :
  (cors_origin ALLOWED_ORIGINS = any_origin <->
   ALLOWED_ORIGINS = None \/ ALLOWED_ORIGINS = Some "") /\
  (forall allowed,
      cors_origin ALLOWED_ORIGINS = origins allowed ->
      exists s,
        ALLOWED_ORIGINS = Some s /\
        String.concat "," allowed = s /\
        length allowed = S (count_char "," s) /\
        Forall (fun piece => count_char "," piece = 0) allowed).
Proof.
  unfold cors_origin.
  destruct ALLOWED_ORIGINS as [s|].
  - destruct (String.eqb_spec s "") as [->|Hne].
    + split; [split; auto|discriminate].
    + split.
      * split; [discriminate|].
        intros [H|H]; [discriminate H|injection H as ->; contradiction].
      * intros allowed [= <-].
        exists s; split; [reflexivity|].
        split; [apply concat_split|].
        split; [apply length_split|apply split_pieces].
  - split; [split; auto|discriminate].
Qed.

Lemma cors_origin_pieces_witness :
  cors_origin (Some "https://a.example,https://b.example")
  = origins ["https://a.example"; "https://b.example"] /\
  exists s,
    Some "https://a.example,https://b.example" = Some s /\
    String.concat "," ["https://a.example"; "https://b.example"] = s /\
    length ["https://a.example"; "https://b.example"]
    = S (count_char "," s) /\
    Forall (fun piece => count_char "," piece = 0)
           ["https://a.example"; "https://b.example"].
Proof.
  split; [reflexivity|].
  exact (proj2 (cors_origin_pieces
                  (Some "https://a.example,https://b.example"))
               _ eq_refl).
Defined.

(** ** Numbers sent as decimal strings *)

From Stdlib Require DecimalPos.

(** The integer read from the digits of [u], most significant first,
    continuing from [acc]. *)
Fixpoint uint_value (u : Decimal.uint) (acc : Z) : Z :=
  match u with
  | Decimal.Nil => acc
  | Decimal.D0 l => uint_value l (acc * 10 + 0)
  | Decimal.D1 l => uint_value l (acc * 10 + 1)
  | Decimal.D2 l => uint_value l (acc * 10 + 2)
  | Decimal.D3 l => uint_value l (acc * 10 + 3)
  | Decimal.D4 l => uint_value l (acc * 10 + 4)
  | Decimal.D5 l => uint_value l (acc * 10 + 5)
  | Decimal.D6 l => uint_value l (acc * 10 + 6)
  | Decimal.D7 l => uint_value l (acc * 10 + 7)
  | Decimal.D8 l => uint_value l (acc * 10 + 8)
  | Decimal.D9 l => uint_value l (acc * 10 + 9)
  end%Z.

Lemma digits_decimal (u : Decimal.uint) (acc : Z) (len : nat) :
  digits 10 (NilEmpty.string_of_uint u) acc len
  = (uint_value u acc, len + Decimal.nb_digits u, "").
Proof.
  revert acc len; induction u as [|u IH|u IH|u IH|u IH|u IH|u IH|u IH|u IH|u IH|u IH];
    intros acc len; cbn [NilEmpty.string_of_uint digits uint_value Decimal.nb_digits].
  1: rewrite Nat.add_0_r; reflexivity.
  all: match goal with
       | |- context [digit_of 10 ?c] =>
           let d := eval vm_compute in (digit_of 10 c) in
           change (digit_of 10 c) with d
       end;
       cbv iota; rewrite IH, Nat.add_succ_r; reflexivity.
Qed.

Lemma uint_value_acc (u : Decimal.uint) (acc : positive) :
  uint_value u (Zpos acc) = Zpos (Pos.of_uint_acc u acc).
Proof.
  revert acc; induction u as [|u IH|u IH|u IH|u IH|u IH|u IH|u IH|u IH|u IH|u IH];
    intros acc; cbn [uint_value Pos.of_uint_acc]; [reflexivity|..];
    rewrite <- IH; f_equal; lia.
Qed.

Lemma uint_value_of_uint (u : Decimal.uint) :
  uint_value u 0 = Z.of_N (Pos.of_uint u).
Proof.
  induction u as [|u IH|u IH|u IH|u IH|u IH|u IH|u IH|u IH|u IH|u IH];
    cbn [uint_value Pos.of_uint]; [reflexivity|exact IH|..];
    cbn [Z.mul Z.add Z.of_N]; apply uint_value_acc.
Qed.

Lemma uint_value_to_uint (p : positive) :
  uint_value (Pos.to_uint p) 0 = Zpos p.
Proof.
  rewrite uint_value_of_uint, DecimalPos.Unsigned.of_to; reflexivity.
Qed.

(** [Number.isSafeInteger]: the integers every one of which is a double
    of its own. *)
Definition isSafeInteger (n : Z) : bool := (Z.abs n <=? 2 ^ 53 - 1)%Z.

(** The three ways the handler reads a field as a number. *)
Definition reads_as (v : jsval) (n : Z) : Prop :=
  parseInt v = Int n /\ ToNumber v = Finite n 0.

Lemma trim_start_cons (c : ascii) (s : string) :
  is_white c = false -> (nat_of_ascii c <? 128)%nat = true ->
  trim_start (String c s) = String c s.
Proof.
  intros H Hc; apply Nat.ltb_lt in Hc.
  cbn [trim_start]; rewrite H.
  destruct s as [|c2 [|c3 s]]; try reflexivity.
  - unfold is_white2.
    destruct (nat_of_ascii c =? 194)%nat eqn:E;
      [apply Nat.eqb_eq in E; lia|reflexivity].
  - unfold is_white2, is_white3.
    destruct (nat_of_ascii c =? 194)%nat eqn:E1;
      [apply Nat.eqb_eq in E1; lia|].
    destruct (nat_of_ascii c =? 225)%nat eqn:E2;
      [apply Nat.eqb_eq in E2; lia|].
    destruct (nat_of_ascii c =? 226)%nat eqn:E3;
      [apply Nat.eqb_eq in E3; lia|].
    destruct (nat_of_ascii c =? 227)%nat eqn:E4;
      [apply Nat.eqb_eq in E4; lia|].
    destruct (nat_of_ascii c =? 239)%nat eqn:E5;
      [apply Nat.eqb_eq in E5; lia|].
    reflexivity.
Qed.

Lemma all_white_cons (c : ascii) (s : string) :
  is_white c = false -> (nat_of_ascii c <? 128)%nat = true ->
  all_white (String c s) = false.
Proof.
  intros H Hc; unfold all_white.
  rewrite (trim_start_cons c s H Hc); reflexivity.
Qed.

Lemma prefix_cons_ne (a b : ascii) (s1 s2 : string) :
  a <> b -> String.prefix (String a s1) (String b s2) = false.
Proof.
  intros H; cbn [String.prefix].
  destruct (ascii_dec a b); [contradiction|reflexivity].
Qed.

Ltac first_digit u :=
  destruct u as [|u|u|u|u|u|u|u|u|u|u]; [contradiction| ..].

(** Evaluates [digit_of] on the characters that are known. *)
Ltac known_digits :=
  repeat match goal with
    | |- context [digit_of ?r (Ascii ?a ?b ?c ?d ?e ?f ?g ?h)] =>
        let v := eval vm_compute in (digit_of r (Ascii a b c d e f g h)) in
        change (digit_of r (Ascii a b c d e f g h)) with v
    end.

(** A decimal numeral, with or without a minus sign, is read as the
    double nearest to the integer it writes. *)
Lemma reads_decimal (negative : bool) (u : Decimal.uint) :
  u <> Decimal.Nil ->
  parseInt (VString ((if negative then "-" else "")
                     ++ NilEmpty.string_of_uint u))
  = to_integer negative (uint_value u 0) /\
  ToNumber (VString ((if negative then "-" else "")
                     ++ NilEmpty.string_of_uint u))
  = to_number negative (uint_value u 0) 0.
Proof.
  intros Hu; unfold parseInt, ToNumber.
  first_digit u.
  1: destruct u as [|u|u|u|u|u|u|u|u|u|u].
  all: destruct negative;
    cbn [NilEmpty.string_of_uint append uint_value];
    unfold parseInt_string, StringToNumber;
    rewrite !trim_start_cons by (vm_compute; reflexivity);
    rewrite !all_white_cons by (vm_compute; reflexivity);
    cbn [strip_sign];
    rewrite ?prefix_cons_ne by discriminate;
    cbn [digits]; known_digits; cbv iota;
    rewrite ?digits_decimal;
    cbn -[signed uint_value Z.mul Z.add to_integer to_number];
    split; reflexivity.
Qed.

Lemma string_of_uint_nonnil (u : Decimal.uint) :
  u <> Decimal.Nil ->
  NilZero.string_of_uint u = NilEmpty.string_of_uint u.
Proof. destruct u; [contradiction|reflexivity..]. Qed.

Lemma to_integer_safe (negative : bool) (z : Z) :
  (0 <= z <= 2 ^ 53)%Z -> to_integer negative z = Int (signed negative z).
Proof.
  intros Hz; unfold to_integer, nearest_integer.
  replace (z <=? 2 ^ 53)%Z with true by (symmetry; apply Z.leb_le; lia).
  assert (2 ^ 53 < 2 ^ 1024)%Z by (apply Z.pow_lt_mono_r; lia).
  replace (2 ^ 1024 <=? z)%Z with false by (symmetry; apply Z.leb_gt; lia).
  reflexivity.
Qed.

Lemma to_number_safe (negative : bool) (z : Z) :
  (0 <= z <= 2 ^ 53)%Z -> to_number negative z 0 = Finite (signed negative z) 0.
Proof.
  intros Hz; unfold to_number.
  destruct (z =? 0)%Z eqn:E.
  - apply Z.eqb_eq in E; subst z; destruct negative; reflexivity.
  - cbn [Z.leb Z.compare].
    rewrite Z.pow_0_r, Z.mul_1_r.
    replace (z <=? 2 ^ 53)%Z with true by (symmetry; apply Z.leb_le; lia).
    reflexivity.
Qed.

Lemma double_of_Z_safe (n : Z) :
  (Z.abs n <= 2 ^ 53)%Z -> double_of_Z n = Int n.
Proof.
  intros Hn; unfold double_of_Z.
  rewrite to_integer_safe by lia.
  f_equal; unfold signed.
  destruct (n <? 0)%Z eqn:E; [apply Z.ltb_lt in E|apply Z.ltb_ge in E]; lia.
Qed.

Lemma ToString_safe (n : Z) :
  (Z.abs n <= 2 ^ 53)%Z -> ToString (VNumber n) = numeral n.
Proof.
  intros Hn; unfold ToString.
  rewrite (double_of_Z_safe n Hn).
  replace (Z.abs n <=? 2 ^ 53)%Z with true by (symmetry; apply Z.leb_le; lia).
  reflexivity.
Qed.

(** A safe integer in a body is read as itself. *)
Lemma number_reads (n : Z) :
  (Z.abs n <= 2 ^ 53)%Z -> reads_as (VNumber n) n.
Proof.
  intros Hn; unfold reads_as, parseInt, ToNumber.
  rewrite (double_of_Z_safe n Hn).
  assert (2 ^ 53 < 10 ^ 21)%Z by reflexivity.
  replace (Z.abs n <? 10 ^ 21)%Z with true by (symmetry; apply Z.ltb_lt; lia).
  split; reflexivity.
Qed.

(** The decimal numeral of a safe integer reads as that integer. *)
Lemma numeral_reads (n : Z) :
  (Z.abs n <= 2 ^ 53)%Z -> reads_as (VString (numeral n)) n.
Proof.
  intros Hn; unfold reads_as, numeral.
  destruct n as [|p|p]; cbn [Z.to_int NilZero.string_of_int].
  - split; reflexivity.
  - pose proof (DecimalPos.Unsigned.to_uint_nonnil p) as Hp.
    rewrite (string_of_uint_nonnil _ Hp).
    destruct (reads_decimal false _ Hp) as [H1 H2].
    rewrite uint_value_to_uint in H1, H2.
    cbn [append] in H1, H2.
    rewrite H1, H2, to_integer_safe, to_number_safe by lia.
    split; reflexivity.
  - pose proof (DecimalPos.Unsigned.to_uint_nonnil p) as Hp.
    rewrite (string_of_uint_nonnil _ Hp).
    destruct (reads_decimal true _ Hp) as [H1 H2].
    rewrite uint_value_to_uint in H1, H2.
    cbn [append] in H1, H2.
    rewrite H1, H2, to_integer_safe, to_number_safe by lia.
    split; reflexivity.
Qed.

Lemma gt_reads (v : jsval) (n k : Z) :
  reads_as v n -> gt v k = (k <? n)%Z.
Proof.
  intros [_ H]; unfold gt; rewrite H.
  cbn [Z.leb Z.compare]; rewrite Z.pow_0_r, Z.mul_1_r; reflexivity.
Qed.

Lemma isSafeInteger_abs (n : Z) :
  isSafeInteger n = true -> (Z.abs n <= 2 ^ 53)%Z.
Proof. unfold isSafeInteger; intros H; apply Z.leb_le in H; lia. Qed.

(** The request [r] with its numeric fields replaced. *)
Definition with_numbers (r : request) (width height quality timeout : jsval)
  : request :=
  {| req_html := req_html r;
     req_width := width;
     req_height := height;
     req_fullPage := req_fullPage r;
     req_quality := quality;
     req_format := req_format r;
     req_waitFor := req_waitFor r;
     req_css := req_css r;
     req_javascript := req_javascript r;
     req_timeout := timeout |}.

(** X17: [width], [height], [quality] and [timeout] may be sent as
    decimal strings.  For safe integers (at most [2^53 - 1] in size),
    [String] gives the decimal numeral, [parseInt] and [>] read that
    numeral as the integer, and the handler does exactly the same,
    validation included, as for the numbers themselves.  (Beyond the
    safe integers a numeral is read as the nearest double, and from
    [10^21] on [parseInt] of a number reads one digit.) *)
Theorem convert_reads_decimal_strings
  (pw : playwright) (r : request) (s : hstate) (w h q t : Z) :
  isSafeInteger w = true -> isSafeInteger h = true ->
  isSafeInteger q = true -> isSafeInteger t = true ->
  ToString (VNumber w) = numeral w /\
  parseInt (VString (numeral w)) = Int w /\
  parseInt (VNumber w) = Int w /\
  (forall k, gt (VString (numeral w)) k = gt (VNumber w) k) /\
  gt (VString (numeral w)) 3840 = (3840 <? w)%Z /\
  gt (VString (numeral h)) 2160 = (2160 <? h)%Z /\
  convert pw (with_numbers r (VString (numeral w)) (VString (numeral h))
                             (VString (numeral q)) (VString (numeral t))) s
  = convert pw (with_numbers r (VNumber w) (VNumber h)
                               (VNumber q) (VNumber t)) s.
Proof.
  intros Hw Hh Hq Ht.
  apply isSafeInteger_abs in Hw, Hh, Hq, Ht.
  split; [exact (ToString_safe w Hw)|].
  split; [exact (proj1 (numeral_reads w Hw))|].
  split; [exact (proj1 (number_reads w Hw))|].
  split; [intros k; rewrite (gt_reads _ w k (numeral_reads w Hw)),
                            (gt_reads _ w k (number_reads w Hw));
          reflexivity|].
  split; [exact (gt_reads _ w _ (numeral_reads w Hw))|].
  split; [exact (gt_reads _ h _ (numeral_reads h Hh))|].
  assert (Htry :
            convert_try pw
              (with_numbers r (VString (numeral w)) (VString (numeral h))
                              (VString (numeral q)) (VString (numeral t)))
            = convert_try pw
                (with_numbers r (VNumber w) (VNumber h)
                                (VNumber q) (VNumber t))).
  { unfold convert_try, screenshot_options.
    cbn [with_numbers req_html req_width req_height req_fullPage req_quality
         req_format req_waitFor req_css req_javascript req_timeout
         with_default].
    rewrite !(gt_reads _ _ _ (numeral_reads _ Hw)),
            !(gt_reads _ _ _ (numeral_reads _ Hh)),
            !(gt_reads _ _ _ (number_reads _ Hw)),
            !(gt_reads _ _ _ (number_reads _ Hh)).
    rewrite !(proj1 (numeral_reads _ Hw)), !(proj1 (numeral_reads _ Hh)),
            !(proj1 (numeral_reads _ Hq)), !(proj1 (numeral_reads _ Ht)),
            !(proj1 (number_reads _ Hw)), !(proj1 (number_reads _ Hh)),
            !(proj1 (number_reads _ Hq)), !(proj1 (number_reads _ Ht)).
    reflexivity. }
  unfold convert; rewrite Htry; reflexivity.
Qed.

Lemma convert_reads_decimal_strings_witness :
  parseInt (VString "5000") = Int 5000 /\
  gt (VString "5000") 3840 = true /\
  convert ideal (with_numbers (only_html "<p>x</p>")
                   (VString "5000") (VString "600")
                   (VString "90") (VString "1000")) (HState boot None)
  = convert ideal (with_numbers (only_html "<p>x</p>")
                     (VNumber 5000) (VNumber 600)
                     (VNumber 90) (VNumber 1000)) (HState boot None).
Proof.
  destruct (convert_reads_decimal_strings ideal (only_html "<p>x</p>")
              (HState boot None) 5000 600 90 1000
              eq_refl eq_refl eq_refl eq_refl)
    as (_ & Hp & _ & _ & Hg & _ & Hc).
  split; [exact Hp|]; split; [exact Hg|exact Hc].
Defined.

(** Beyond the safe integers the two readings part: a numeral is
    rounded, and a number from [10^21] on is read by its first digit. *)
Example large_numbers_read :
  isSafeInteger 9007199254740993 = false /\
  parseInt (VString "9007199254740993") = Int 9007199254740992 /\
  parseInt (VString "1000000000000000000000") = Int (10 ^ 21) /\
  parseInt (VNumber (10 ^ 21)) = Int 1 /\
  gt (VString "3840.0000000000000001") 3840 = false.
Proof. vm_compute; repeat split. Qed.
